(** * Onion site accessibility checker: model and properties

    A shallow embedding of [onion_site_checker.py] (class [OnionSiteChecker]).

    - Python values that travel through the JSON document are values of
      [pyval]; a [dict] is an association list in insertion order. A
      character of a [str] is a code point below 256.
    - The output file is modelled by what [open]/[json.load] make of it
      ([file_state]); the [json] library is taken to write a value and read
      the same value back, when it does not raise.
    - The parsed page is a tree of [node]s; the parser itself
      ([BeautifulSoup(..., 'html.parser')]) is a collaborator found in [env].
    - [urlparse] is computed on the URLs on which all versions of the
      library agree, and is a collaborator found in [env] on the others.
    - Everything outside the process (network answers, the clock, the disk,
      sleeping) is an oracle of [env]; the calls made are recorded in the
      [log] of the checker state. A [KeyboardInterrupt] arrives while the
      process waits: during a request or a sleep.
    - Methods that read or change [self] are computations of the monad [M]:
      state passing with Python exceptions, and fuel for the [while] loop.
    - Counters of [run_checker] that are only logged ([sites_found],
      [sites_accessible]) and the log lines themselves are left out. *)

From Stdlib Require Import ZArith List String Ascii Bool Lia Floats DecimalString.
Import ListNotations.
Set Warnings "-register-all".
Open Scope Z_scope.
Open Scope list_scope.

(* ------------------------------------------------------------------ *)
(** ** Python values and exceptions *)

Module Py.

Inductive exn : Type :=
| KeyboardInterrupt
| TypeError
| KeyError
| AttributeError
| ValueError
| UnicodeError          (* [UnicodeEncodeError], [UnicodeDecodeError] *)
| RecursionError.

(** Result of running a piece of Python: a value, a raised exception, or
    (for the [while] loop only) exhausted fuel. *)
Inductive outcome (A : Type) : Type :=
| Ret (a : A)
| Raise (e : exn)
| OutOfFuel.
Arguments Ret {A} a.
Arguments Raise {A} e.
Arguments OutOfFuel {A}.

Inductive pyval : Type :=
| PNone
| PBool (b : bool)
| PInt (n : Z)
| PFloat (x : float)
| PStr (s : string)
| PList (items : list pyval)
| PDict (fields : list (string * pyval)).

Definition dict := list (string * pyval).

(** [d[k]] / [k in d] *)
Fixpoint dict_get (k : string) (d : dict) : option pyval :=
  match d with
  | [] => None
  | (k', v) :: d' => if String.eqb k' k then Some v else dict_get k d'
  end.

(** [d[k] = v]: an existing key keeps its place, a new key goes last. *)
Fixpoint dict_set (k : string) (v : pyval) (d : dict) : dict :=
  match d with
  | [] => [(k, v)]
  | (k', v') :: d' =>
      if String.eqb k' k then (k', v) :: d' else (k', v') :: dict_set k v d'
  end.

(** [len(v)]; [None] stands for the [TypeError] of an unsized value. *)
Definition py_len (v : pyval) : option Z :=
  match v with
  | PStr s => Some (Z.of_nat (String.length s))
  | PList l => Some (Z.of_nat (List.length l))
  | PDict d => Some (Z.of_nat (List.length d))
  | _ => None
  end.

Fixpoint chars (s : string) : list pyval :=
  match s with
  | EmptyString => []
  | String c s' => PStr (String c EmptyString) :: chars s'
  end.

(** What [for x in v] ranges over. *)
Definition py_iter (v : pyval) : outcome (list pyval) :=
  match v with
  | PList l => Ret l
  | PDict d => Ret (map (fun kv => PStr (fst kv)) d)
  | PStr s => Ret (chars s)
  | _ => Raise TypeError
  end.

(** [v[k]] for a string key [k]. *)
Definition getitem (v : pyval) (k : string) : outcome pyval :=
  match v with
  | PDict d => match dict_get k d with Some x => Ret x | None => Raise KeyError end
  | _ => Raise TypeError
  end.

(** [v == s] where [s] is a [str]. *)
Definition eq_str (v : pyval) (s : string) : bool :=
  match v with
  | PStr s' => String.eqb s' s
  | _ => false
  end.

(** *** [str] methods (on characters that are code points below 256) *)

Definition startswith (p s : string) : bool := String.prefix p s.

Definition endswith (suf s : string) : bool :=
  let n := String.length s in
  let k := String.length suf in
  (k <=? n)%nat && String.eqb (substring (n - k) k s) suf.

(** [sub in s] *)
Fixpoint contains (sub s : string) : bool :=
  String.prefix sub s ||
  match s with
  | EmptyString => false
  | String _ s' => contains sub s'
  end.

Fixpoint mem_char (c : ascii) (cs : string) : bool :=
  match cs with
  | EmptyString => false
  | String c' cs' => Ascii.eqb c c' || mem_char c cs'
  end.

(** [s.lstrip(cs)] *)
Fixpoint lstrip (cs s : string) : string :=
  match s with
  | EmptyString => EmptyString
  | String c s' => if mem_char c cs then lstrip cs s' else s
  end.

(** [c.isspace()]: the code points 9 to 13, 28 to 32, 133 and 160 are the
    white space below 256. *)
Definition is_space (c : ascii) : bool :=
  let n := nat_of_ascii c in
  ((9 <=? n) && (n <=? 13) || (28 <=? n) && (n <=? 32)
   || (n =? 133) || (n =? 160))%nat.

Fixpoint lstrip_space (s : string) : string :=
  match s with
  | EmptyString => EmptyString
  | String c s' => if is_space c then lstrip_space s' else s
  end.

Fixpoint rstrip_space (s : string) : string :=
  match s with
  | EmptyString => EmptyString
  | String c s' =>
      let r := rstrip_space s' in
      if is_space c && String.eqb r EmptyString then EmptyString else String c r
  end.

(** [s.strip()] *)
Definition strip (s : string) : string := rstrip_space (lstrip_space s).

(** [str(n)] *)
Definition str_of_int (n : Z) : string := NilZero.string_of_int (Z.to_int n).

End Py.
Import Py.

(* ------------------------------------------------------------------ *)
(** ** [urllib.parse.urlparse(url).netloc] *)

Module Url.

Definition in_range (lo hi c : ascii) : bool :=
  (nat_of_ascii lo <=? nat_of_ascii c)%nat && (nat_of_ascii c <=? nat_of_ascii hi)%nat.

Definition is_alpha (c : ascii) : bool :=
  in_range "a" "z" c || in_range "A" "Z" c.

Definition scheme_char (c : ascii) : bool :=
  is_alpha c || in_range "0" "9" c || mem_char c "+-.".

Fixpoint all_chars (p : ascii -> bool) (s : string) : bool :=
  match s with
  | EmptyString => true
  | String c s' => p c && all_chars p s'
  end.

(** The part of [url] left once a leading [scheme:] is split off: the text
    before the first colon is a scheme when it is not empty, starts with a
    letter and holds scheme characters only. *)
Definition after_scheme (url : string) : string :=
  match index 0 ":" url with
  | Some i =>
      if (0 <? i)%nat
         && match url with String c _ => is_alpha c | EmptyString => false end
         && all_chars scheme_char (substring 0 i url)
      then substring (S i) (String.length url - S i) url
      else url
  | None => url
  end.

(** [_splitnetloc]: up to the first of [/], [?], [#]. *)
Fixpoint take_host (s : string) : string :=
  match s with
  | EmptyString => EmptyString
  | String c s' => if mem_char c "/?#" then EmptyString else String c (take_host s')
  end.

(** The URLs on which every version of the library computes the same
    network location: printable ASCII only (no blank, no control character:
    recent versions delete TAB, CR and LF and strip leading blanks, and check
    hosts outside ASCII against their NFKC form) and a letter first (older
    versions take a scheme to start with any scheme character). *)
Definition printable (c : ascii) : bool := in_range "!" "~" c.

Definition plain (url : string) : bool :=
  all_chars printable url
  && match url with String c _ => is_alpha c | EmptyString => false end.

(** What the library answers: a network location, or [ValueError]. *)
Definition of_library (r : option string) : outcome string :=
  match r with
  | Some h => Ret h
  | None => Raise ValueError
  end.

(** [urlparse(url).netloc]. On a plain URL: what follows a leading [//]
    once the scheme is split off, up to the first delimiter; [ValueError]
    ("Invalid IPv6 URL") when only one of the two square brackets occurs in
    it; when both occur, recent versions also check what stands between
    them, so the answer is the library's. On any other URL the answer is
    the library's too. *)
Definition netloc (library : string -> option string) (url : string)
  : outcome string :=
  if plain url then
    let rest := after_scheme url in
    if String.prefix "//" rest then
      let h := take_host (substring 2 (String.length rest - 2) rest) in
      if xorb (contains "[" h) (contains "]" h) then Raise ValueError
      else if contains "[" h then of_library (library url)
      else Ret h
    else Ret EmptyString
  else of_library (library url).

(** One library, for the sample worlds: TAB, CR and LF are deleted from the
    URL, and whatever stands between two brackets is accepted. *)
Fixpoint without_breaks (s : string) : string :=
  match s with
  | EmptyString => EmptyString
  | String c s' =>
      if (nat_of_ascii c =? 9)%nat || (nat_of_ascii c =? 10)%nat
         || (nat_of_ascii c =? 13)%nat
      then without_breaks s'
      else String c (without_breaks s')
  end.

Definition lenient (url : string) : option string :=
  let rest := after_scheme (without_breaks url) in
  if String.prefix "//" rest then
    let h := take_host (substring 2 (String.length rest - 2) rest) in
    if xorb (contains "[" h) (contains "]" h) then None else Some h
  else Some EmptyString.

End Url.

(* ------------------------------------------------------------------ *)
(** ** The parsed page *)

Module Html.

(** Text and tags; comments and the like, which none of the calls made
    here looks at, are left out of the tree. *)
Inductive node : Type :=
| Text (s : string)
| Tag (name : string) (attrs : list (string * string)) (children : list node).

Fixpoint attr (k : string) (attrs : list (string * string)) : option string :=
  match attrs with
  | [] => None
  | (k', v) :: rest => if String.eqb k' k then Some v else attr k rest
  end.

(** Everything below a node, in document order. *)
Fixpoint descendants (n : node) : list node :=
  match n with
  | Text _ => []
  | Tag _ _ cs => flat_map (fun c => c :: descendants c) cs
  end.

(** The [BeautifulSoup] object is the root; its contents are the top-level
    nodes of the page. *)
Definition soup := list node.

Definition soup_descendants (doc : soup) : list node :=
  flat_map (fun c => c :: descendants c) doc.

Definition has_id (v : string) (n : node) : bool :=
  match n with
  | Text _ => false
  | Tag _ attrs _ =>
      match attr "id" attrs with Some v' => String.eqb v' v | None => false end
  end.

(** [soup.find(id=v)]: the first tag of the page carrying that id. *)
Definition find_id (v : string) (doc : soup) : option node :=
  List.find (has_id v) (soup_descendants doc).

Definition is_link (n : node) : bool :=
  match n with
  | Text _ => false
  | Tag name attrs _ =>
      String.eqb name "a" &&
      match attr "href" attrs with Some _ => true | None => false end
  end.

(** [tag.find_all('a', href=True)] *)
Definition find_all_links (n : node) : list node :=
  filter is_link (descendants n).

(** [link['href']] of a tag returned by [find_all_links]. *)
Definition href_of (n : node) : string :=
  match n with
  | Tag _ attrs _ => match attr "href" attrs with Some v => v | None => EmptyString end
  | Text _ => EmptyString
  end.

(** [tag.get_text()] *)
Fixpoint get_text (n : node) : string :=
  match n with
  | Text s => s
  | Tag _ _ cs => String.concat EmptyString (map get_text cs)
  end.

End Html.
Import Html.

(* ------------------------------------------------------------------ *)
(** ** The checker *)

Module Checker.

(** The dict literal built by [extract_onion_sites] for one link:
    [{'domain': ..., 'url': ..., 'text': ...}], three [str] fields. *)
Record site_info : Type := {
  domain : string;
  url : string;
  text : string
}.

Definition as_dict (s : site_info) : dict :=
  [("domain"%string, PStr (domain s)); ("url"%string, PStr (url s));
   ("text"%string, PStr (text s))].

(** *** The outside world *)

(** What [session.get] does. *)
Inductive net_outcome : Type :=
| Response (status_code : Z) (body : string) (json : option pyval) (elapsed : float)
| TimedOut
| ConnectionError
| RequestError          (* any other [Exception] *)
| Interrupt.            (* [KeyboardInterrupt] while waiting *)

(** What [time.sleep] does; it refuses a negative delay with [ValueError]. *)
Inductive nap_outcome : Type := Slept | NapInterrupted | NapRefused.

(** What opening the output file for writing and dumping into it does.
    [Written] is a dump that completes, the file reading back as the
    document dumped. *)
Inductive write_outcome : Type :=
| Written
| Denied                (* [open] raises [IOError]: the file is untouched *)
| Torn                  (* the dump raises [IOError]: the file is cut short *)
| TornInCharacter       (* the same, the cut falling inside a character *)
| Crashed (e : exn) (in_character : bool).
                        (* the dump raises [e], no [IOError] (a character
                           the file's encoding does not have, say): [e]
                           escapes [save_sites] and the file is cut short,
                           inside a character or not *)

(** One run asks for each listing page at most once and probes the i-th
    entry of a page at most once, so the answers are indexed that way. The
    clock and the disk are indexed by the number of clock readings so far. *)
Record env : Type := {
  html_parser : string -> soup;
  urlparse_netloc : string -> option string;
  tor_answer : net_outcome;
  listing_answer : Z -> net_outcome;
  site_answer : Z -> nat -> string -> net_outcome;
  entry_nap : Z -> nat -> nap_outcome;
  page_nap : Z -> nap_outcome;
  now : nat -> string;
  disk_write : nat -> write_outcome
}.

Inductive purpose : Type := Diagnostic | Listing | Probe.

Inductive event : Type :=
| Get (p : purpose) (url : string)      (* [session.get(url, ...)] *)
| Sleep (lo hi : Z)                     (* [time.sleep(random.uniform(lo, hi))] *)
| Dump (data : pyval) (o : write_outcome).  (* [json.dump(data, f)] *)

(** What is at [self.output_file]. *)
Inductive file_state : Type :=
| Absent
| Unreadable            (* [open] raises [IOError] *)
| Malformed             (* [json.load] raises [JSONDecodeError] *)
| Unloadable (e : exn)  (* [json.load] raises [e], which the [except]
                           clause does not name ([UnicodeDecodeError] on
                           bytes that are no text, [RecursionError]) *)
| Holds (data : pyval).

Record checker : Type := {
  accessible_sites : pyval;
  disk : file_state;
  clock : nat;
  log : list event        (* latest first *)
}.

(** *** [extract_onion_sites] *)

(** The body of the [for link in links] loop: the entry appended for this
    link, if any. *)
Definition entry_of_link (w : env) (link : node) : outcome (option site_info) :=
  let href := href_of link in
  if endswith ".onion" href || contains ".onion/" href then
    let href :=
      if startswith "http" href then href
      else ("http://" ++ lstrip "/" href)%string in
    match Url.netloc (urlparse_netloc w) href with
    | Ret onion_domain =>
        if negb (String.eqb onion_domain EmptyString)
           && endswith ".onion" onion_domain
        then Ret (Some {| domain := onion_domain;
                          url := href;
                          text := strip (get_text link) |})
        else Ret None
    | Raise e => Raise e
    | OutOfFuel => OutOfFuel
    end
  else Ret None.

Fixpoint collect (w : env) (links : list node) (onion_sites : list site_info)
  : outcome (list site_info) :=
  match links with
  | [] => Ret onion_sites
  | link :: rest =>
      match entry_of_link w link with
      | Ret (Some e) => collect w rest (onion_sites ++ [e])
      | Ret None => collect w rest onion_sites
      | Raise e => Raise e
      | OutOfFuel => OutOfFuel
      end
  end.

Definition extract_from_soup (w : env) (doc : soup) : outcome (list site_info) :=
  match find_id "link_list" doc with
  | None => Ret []
  | Some link_list => collect w (find_all_links link_list) []
  end.

(** *** The monad of methods *)

Definition M (A : Type) : Type := checker -> outcome A * checker.

Definition ret {A} (a : A) : M A := fun st => (Ret a, st).
Definition raise {A} (e : exn) : M A := fun st => (Raise e, st).
Definition lift {A} (o : outcome A) : M A := fun st => (o, st).

Definition bind {A B} (m : M A) (k : A -> M B) : M B :=
  fun st =>
    match m st with
    | (Ret a, st') => k a st'
    | (Raise e, st') => (Raise e, st')
    | (OutOfFuel, st') => (OutOfFuel, st')
    end.

Declare Scope py_scope.
Delimit Scope py_scope with py.
Notation "x <- m ;; k" := (bind m (fun x => k))
  (at level 61, m at next level, right associativity) : py_scope.
Notation "m ;; k" := (bind m (fun _ => k))
  (at level 61, right associativity) : py_scope.
Open Scope py_scope.

(** The state once [ev] has happened. *)
Definition logged (ev : event) (st : checker) : checker :=
  {| accessible_sites := accessible_sites st;
     disk := disk st;
     clock := clock st;
     log := ev :: log st |}.

Definition emit (ev : event) : M unit := fun st => (Ret tt, logged ev st).

Definition get_sites : M pyval := fun st => (Ret (accessible_sites st), st).

(** *** [load_existing_sites] *)

Definition load_existing_sites (f : file_state) : outcome pyval :=
  match f with
  | Absent => Ret (PList [])
  | Unreadable => Ret (PList [])
  | Malformed => Ret (PList [])
  | Unloadable e => Raise e
  | Holds data =>
      match data with
      | PDict d =>
          match dict_get "accessible_sites" d with
          | Some sites => Ret sites
          | None => Ret (PList [])
          end
      | PList l => Ret (PList l)
      | _ => Ret (PList [])
      end
  end.

(** What [__init__] leaves in [self] once [sites] is loaded from [f]. *)
Definition fresh (sites : pyval) (f : file_state) : checker :=
  {| accessible_sites := sites; disk := f; clock := 0%nat; log := [] |}.

(** [OnionSiteChecker(output_file)]: the constructor raises what
    [load_existing_sites] raises. *)
Definition init (f : file_state) : outcome checker :=
  match load_existing_sites f with
  | Ret sites => Ret (fresh sites f)
  | Raise e => Raise e
  | OutOfFuel => OutOfFuel
  end.

Definition base_url : string :=
  "http://jptvwdeyknkv6oiwjtr2kxzehfnmcujl7rf7vytaikmwlvze773uiyyd.onion/".

Definition listing_url (page_number : Z) : string :=
  (base_url ++ "?page=" ++ str_of_int page_number)%string.

Definition written (o : write_outcome) (data : pyval) (f : file_state) : file_state :=
  match o with
  | Written => Holds data
  | Denied => f
  | Torn => Malformed
  | TornInCharacter => Unloadable UnicodeError
  | Crashed _ false => Malformed
  | Crashed _ true => Unloadable UnicodeError
  end.

(** How [save_sites] ends once the document is built: an [IOError] is
    caught and logged, anything else the dump raises escapes. *)
Definition dump_result (o : write_outcome) : outcome unit :=
  match o with
  | Crashed e _ => Raise e
  | _ => Ret tt
  end.

Section Methods.

Context (w : env).

(** [datetime.now().isoformat()] *)
Definition isonow : M string :=
  fun st => (Ret (now w (clock st)),
             {| accessible_sites := accessible_sites st;
                disk := disk st;
                clock := S (clock st);
                log := log st |}).

(** *** [save_sites] *)

Definition save_sites : M unit :=
  fun st =>
    let k := clock st in
    (stamp <- isonow ;;
     sites <- get_sites ;;
     match py_len sites with
     | None => raise TypeError
     | Some n =>
         let data := PDict [("last_updated"%string, PStr stamp);
                            ("total_accessible_sites"%string, PInt n);
                            ("accessible_sites"%string, sites)] in
         fun st' =>
           (dump_result (disk_write w k),
            {| accessible_sites := accessible_sites st';
               disk := written (disk_write w k) data (disk st');
               clock := clock st';
               log := Dump data (disk_write w k) :: log st' |})
     end) st.

(** *** [test_tor_connection] *)

Definition test_tor_connection : M bool :=
  emit (Get Diagnostic "http://httpbin.org/ip") ;;
  match tor_answer w with
  | Response status _ json _ =>
      if status =? 200 then
        match json with
        | Some (PDict _) => ret true
        | _ => ret false        (* [response.json()] or [.get] raised *)
        end
      else ret false
  | TimedOut | ConnectionError | RequestError => ret false
  | Interrupt => raise KeyboardInterrupt
  end.

(** *** [extract_onion_sites] *)

Definition extract_onion_sites (html_content : string) : outcome (list site_info) :=
  extract_from_soup w (html_parser w html_content).

(** *** [fetch_onion_listing_page] *)

Definition fetch_onion_listing_page (page_number : Z) : M (option string) :=
  emit (Get Listing (listing_url page_number)) ;;
  match listing_answer w page_number with
  | Response status body _ _ =>
      if status =? 200 then ret (Some body) else ret None
  | TimedOut | ConnectionError | RequestError => ret None
  | Interrupt => raise KeyboardInterrupt
  end.

(** *** [test_onion_site_accessibility] *)

(** The [for existing_site in self.accessible_sites] scan: [Ret true] when it
    returns early. *)
Fixpoint already_tested (existing : list pyval) (d : string) : outcome bool :=
  match existing with
  | [] => Ret false
  | existing_site :: rest =>
      match getitem existing_site "domain" with
      | Ret v => if eq_str v d then Ret true else already_tested rest d
      | Raise e => Raise e
      | OutOfFuel => OutOfFuel
      end
  end.

(** The entry [site_info] has become once the three keys are set. *)
Definition probed (s : site_info) (stamp : string) (elapsed : float) : dict :=
  dict_set "response_time" (PFloat elapsed)
    (dict_set "tested_at" (PStr stamp)
       (dict_set "status" (PStr "accessible") (as_dict s))).

(** Returns the boolean of the source together with [site_info] as the call
    leaves it; [page] and [i] tell which entry of which page is probed. *)
Definition test_onion_site_accessibility (page : Z) (i : nat) (s : site_info)
  : M (bool * dict) :=
  sites <- get_sites ;;
  existing <- lift (py_iter sites) ;;
  known <- lift (already_tested existing (domain s)) ;;
  if known : bool then ret (false, as_dict s)
  else
    emit (Get Probe (url s)) ;;
    match site_answer w page i (url s) with
    | Response status _ _ elapsed =>
        if status =? 200 then
          stamp <- isonow ;;
          ret (true, probed s stamp elapsed)
        else ret (false, as_dict s)
    | TimedOut | ConnectionError | RequestError => ret (false, as_dict s)
    | Interrupt => raise KeyboardInterrupt
    end.

(** *** [run_checker] *)

(** [self.accessible_sites.append(entry)] *)
Definition append (entry : pyval) : M unit :=
  fun st =>
    match accessible_sites st with
    | PList l =>
        (Ret tt, {| accessible_sites := PList (l ++ [entry]);
                    disk := disk st;
                    clock := clock st;
                    log := log st |})
    | _ => (Raise AttributeError, st)
    end.

(** [time.sleep(random.uniform(lo, hi))] *)
Definition sleep (lo hi : Z) (o : nap_outcome) : M unit :=
  emit (Sleep lo hi) ;;
  match o with
  | Slept => ret tt
  | NapInterrupted => raise KeyboardInterrupt
  | NapRefused => raise ValueError
  end.

(** The [for site_info in onion_sites] loop, from the i-th entry on. *)
Fixpoint test_each (delay_range : Z * Z) (page : Z) (i : nat)
  (onion_sites : list site_info) : M unit :=
  match onion_sites with
  | [] => ret tt
  | s :: rest =>
      r <- test_onion_site_accessibility page i s ;;
      (if fst r then append (PDict (snd r)) ;; save_sites else ret tt) ;;
      sleep (fst delay_range) (snd delay_range) (entry_nap w page i) ;;
      test_each delay_range page (S i) rest
  end.

(** [not html_content] *)
Definition falsy (html_content : option string) : bool :=
  match html_content with
  | None => true
  | Some s => String.eqb s EmptyString
  end.

Definition markup (html_content : option string) : string :=
  match html_content with
  | Some s => s
  | None => EmptyString
  end.

(** The [while pages_checked < max_pages] loop; one unit of fuel per
    iteration. *)
Fixpoint while_loop (fuel : nat) (max_pages : Z) (delay_range : Z * Z)
  (page_number pages_checked : Z) : M unit :=
  if pages_checked <? max_pages then
    match fuel with
    | O => lift OutOfFuel
    | S fuel' =>
        html_content <- fetch_onion_listing_page page_number ;;
        if falsy html_content then
          while_loop fuel' max_pages delay_range (page_number + 1) pages_checked
        else
          onion_sites <- lift (extract_onion_sites (markup html_content)) ;;
          test_each delay_range page_number 0 onion_sites ;;
          (if pages_checked + 1 <? max_pages
           then sleep 15 30 (page_nap w page_number)
           else ret tt) ;;
          while_loop fuel' max_pages delay_range (page_number + 1) (pages_checked + 1)
    end
  else ret tt.

(** [try: ... except KeyboardInterrupt: ... except Exception: ... finally: h]:
    both handlers only log, so every exception of the body is swallowed and
    [h] runs next. *)
Definition try_finally (body h : M unit) : M unit :=
  fun st =>
    match body st with
    | (Ret _, st') => h st'
    | (Raise _, st') => h st'
    | (OutOfFuel, st') => (OutOfFuel, st')
    end.

Definition run_checker (fuel : nat) (start_page max_pages : Z) (delay_range : Z * Z)
  : M unit :=
  ok <- test_tor_connection ;;
  if ok : bool then
    try_finally (while_loop fuel max_pages delay_range start_page 0) save_sites
  else ret tt.

End Methods.

End Checker.
Import Checker.

(* ------------------------------------------------------------------ *)
(** ** Vocabulary of the properties *)

(** The address of an entry of the set: its ['domain'] when that is a string. *)
Definition address_of (e : pyval) : option string :=
  match getitem e "domain" with
  | Ret (PStr a) => Some a
  | _ => None
  end.

Fixpoint addresses (l : list pyval) : list string :=
  match l with
  | [] => []
  | e :: rest =>
      match address_of e with
      | Some a => a :: addresses rest
      | None => addresses rest
      end
  end.

(** The entries sequence of a value that stands for the set. *)
Definition entries_of (v : pyval) : list pyval :=
  match v with
  | PList l => l
  | _ => []
  end.

Definition unique_addresses (v : pyval) : Prop :=
  NoDup (addresses (entries_of v)).

(** An object with a ['domain'] field. *)
Definition is_entry (e : pyval) : Prop :=
  exists v, getitem e "domain" = Ret v.

(** The documents written so far. *)
Fixpoint snapshots (l : list event) : list pyval :=
  match l with
  | [] => []
  | Dump data _ :: rest => data :: snapshots rest
  | _ :: rest => snapshots rest
  end.

(** Number of listing pages asked for so far: one per loop iteration. *)
Fixpoint iterations (l : list event) : nat :=
  match l with
  | [] => O
  | Get Listing _ :: rest => S (iterations rest)
  | _ :: rest => iterations rest
  end.

Fixpoint naps (l : list event) : nat :=
  match l with
  | [] => O
  | Sleep _ _ :: rest => S (naps rest)
  | _ :: rest => naps rest
  end.

Fixpoint requests (l : list event) : nat :=
  match l with
  | [] => O
  | Get _ _ :: rest => S (requests rest)
  | _ :: rest => requests rest
  end.

(** The fetch of a page hands markup to the extractor. *)
Definition fetched (w : env) (page : Z) : bool :=
  match listing_answer w page with
  | Response status body _ _ => (status =? 200) && negb (String.eqb body EmptyString)
  | _ => false
  end.

(** Among the [n] pages from [page] on, how many fetches fail to deliver. *)
Fixpoint skipped (w : env) (page : Z) (n : nat) : nat :=
  match n with
  | O => O
  | S n' => (if fetched w page then 0 else 1) + skipped w (page + 1) n'
  end.

(** The set in memory is a sequence. *)
Definition sequence_in_memory (st : checker) : Prop :=
  exists l, accessible_sites st = PList l.

(** The entries sequence of a written document. *)
Definition document_entries (data : pyval) : list pyval :=
  match getitem data "accessible_sites" with
  | Ret v => entries_of v
  | _ => []
  end.

(** No address occurs twice: in memory, in any document written so far, and
    in what a later run would load from the disk. *)
Definition tidy (st : checker) : Prop :=
  unique_addresses (accessible_sites st) /\
  Forall (fun data => NoDup (addresses (document_entries data))) (snapshots (log st)) /\
  (forall v, load_existing_sites (disk st) = Ret v -> unique_addresses v).

(* ------------------------------------------------------------------ *)
(** ** Sample pages, documents and worlds *)

Module Sample.

Local Open Scope string_scope.

Definition page : soup :=
  [Tag "html" []
     [Tag "body" []
        [Tag "h1" [] [Text "Links"];
         Tag "div" [("id", "link_list")]
           [Tag "a" [("href", "abc.onion")] [Text " Abc "];
            Tag "a" [("href", "notonion.com")] [Text "Other"]]]]].

Definition container : node :=
  Tag "div" [("id", "link_list")]
    [Tag "a" [("href", "abc.onion")] [Text " Abc "];
     Tag "a" [("href", "notonion.com")] [Text "Other"]].

Definition abc_link : node := Tag "a" [("href", "abc.onion")] [Text " Abc "].

Definition other_link : node := Tag "a" [("href", "notonion.com")] [Text "Other"].

Definition abc : site_info :=
  {| domain := "abc.onion"; url := "http://abc.onion"; text := "Abc" |}.

(** An entry as an earlier run left it in the document. *)
Definition abc_probed : pyval :=
  PDict (probed abc "2024-01-01T10:00:00.000000" 1.5%float).

Definition tor_ok : net_outcome :=
  Response 200 "{ origin: 185.220.101.1 }"
    (Some (PDict [("origin", PStr "185.220.101.1")])) 0.5%float.

(** Every page arrives and every site answers. *)
Definition up : env :=
  {| html_parser := fun _ => page;
     urlparse_netloc := Url.lenient;
     tor_answer := tor_ok;
     listing_answer := fun _ => Response 200 "<html>...</html>" None 1%float;
     site_answer := fun _ _ _ => Response 200 "<html></html>" None 2.5%float;
     entry_nap := fun _ _ => Slept;
     page_nap := fun _ => Slept;
     now := fun n => ("2024-01-02T10:00:00.00000" ++ str_of_int (Z.of_nat n));
     disk_write := fun _ => Written |}.

(** The directory answers 503 to every page. *)
Definition down : env :=
  {| html_parser := html_parser up;
     urlparse_netloc := urlparse_netloc up;
     tor_answer := tor_ok;
     listing_answer := fun _ => Response 503 "" None 0.25%float;
     site_answer := site_answer up;
     entry_nap := entry_nap up;
     page_nap := page_nap up;
     now := now up;
     disk_write := disk_write up |}.

(** Page 0 times out, the others arrive. *)
Definition flaky : env :=
  {| html_parser := html_parser up;
     urlparse_netloc := urlparse_netloc up;
     tor_answer := tor_ok;
     listing_answer := fun p => if (p =? 0)%Z then TimedOut else listing_answer up p;
     site_answer := site_answer up;
     entry_nap := entry_nap up;
     page_nap := page_nap up;
     now := now up;
     disk_write := disk_write up |}.

(** The user interrupts the first sleep between two probes. *)
Definition interrupted : env :=
  {| html_parser := html_parser up;
     urlparse_netloc := urlparse_netloc up;
     tor_answer := tor_ok;
     listing_answer := listing_answer up;
     site_answer := site_answer up;
     entry_nap := fun _ _ => NapInterrupted;
     page_nap := page_nap up;
     now := now up;
     disk_write := disk_write up |}.

(** The page holds a link whose host opens a bracket and never closes it. *)
Definition broken : env :=
  {| html_parser := fun _ =>
       [Tag "ul" [("id", "link_list")]
          [Tag "a" [("href", "http://[abc.onion")] [Text "x"]]];
     urlparse_netloc := urlparse_netloc up;
     tor_answer := tor_ok;
     listing_answer := listing_answer up;
     site_answer := site_answer up;
     entry_nap := entry_nap up;
     page_nap := page_nap up;
     now := now up;
     disk_write := disk_write up |}.

(** A legacy document, a bare array, that lists the same address twice. *)
Definition legacy_twice : file_state := Holds (PList [abc_probed; abc_probed]).

(** A checker built where there is no file yet. *)
Definition new : checker := fresh (PList []) Absent.

(** A checker that starts from a document listing [abc.onion]. *)
Definition knows_abc : checker :=
  fresh (PList [abc_probed]) (Holds (PList [abc_probed])).

(** A checker built on [legacy_twice]. *)
Definition knows_abc_twice : checker :=
  fresh (PList [abc_probed; abc_probed]) legacy_twice.

(** A fresh checker once the connectivity check has been made. *)
Definition started : checker :=
  logged (Get Diagnostic "http://httpbin.org/ip") new.

(** Where the loop over one page, in world [up], leaves that checker. *)
Definition crawled : checker := snd (while_loop up 1 1 (5, 15) 0 0 started).

End Sample.

(* ------------------------------------------------------------------ *)
(** ** Further vocabulary *)

(** A host as it stands in a link: printable ASCII, none of the characters
    that end the network location of a URL, and no square bracket. *)
Definition bare_host (h : string) : bool :=
  Url.all_chars (fun c => Url.printable c && negb (mem_char c "/?#[]")) h.

(** What may follow the host in a link: nothing, or a path, in printable
    ASCII. *)
Definition path_or_nothing (rest : string) : bool :=
  Url.all_chars Url.printable rest
  && match rest with
     | EmptyString => true
     | String c _ => Ascii.eqb c "/"
     end.

(** The listing pages asked for so far, latest first. *)
Fixpoint listing_urls (l : list event) : list string :=
  match l with
  | [] => []
  | Get Listing u :: rest => u :: listing_urls rest
  | _ :: rest => listing_urls rest
  end.

(** Number of requests sent to candidate sites so far. *)
Fixpoint probes (l : list event) : nat :=
  match l with
  | [] => O
  | Get Probe _ :: rest => S (probes rest)
  | _ :: rest => probes rest
  end.

(** The pages [page], [page + 1], ... ([n] of them), latest first. *)
Fixpoint pages_from (page : Z) (n : nat) : list Z :=
  match n with
  | O => []
  | S n' => pages_from (page + 1) n' ++ [page]
  end.

(** An entry as a successful probe leaves it. *)
Definition is_probed (e : pyval) : Prop :=
  exists s stamp elapsed, e = PDict (probed s stamp elapsed).

(** A probe that is not answered with status 200. *)
Definition unanswered (o : net_outcome) : Prop :=
  match o with
  | Response status _ _ _ => status <> 200
  | TimedOut | ConnectionError | RequestError => True
  | Interrupt => False
  end.

(** The set in memory is [l] followed by entries left by successful probes. *)
Definition extends (l : list pyval) (st : checker) : Prop :=
  exists added, accessible_sites st = PList (l ++ added) /\ Forall is_probed added.

(** Set, file and written documents are [v], [f] and [docs]. *)
Definition frozen (v : pyval) (f : file_state) (docs : list pyval) (st : checker) : Prop :=
  accessible_sites st = v /\ disk st = f /\ snapshots (log st) = docs.

(** The set in memory has a length. *)
Definition sized (st : checker) : Prop := py_len (accessible_sites st) <> None.

(** *** More sample worlds and documents *)

Module Cases.

Local Open Scope string_scope.

(** The proxy is not running: the diagnostic request fails to connect. *)
Definition offline : env :=
  {| html_parser := html_parser Sample.up;
     urlparse_netloc := urlparse_netloc Sample.up;
     tor_answer := ConnectionError;
     listing_answer := listing_answer Sample.up;
     site_answer := site_answer Sample.up;
     entry_nap := entry_nap Sample.up;
     page_nap := page_nap Sample.up;
     now := now Sample.up;
     disk_write := disk_write Sample.up |}.

(** The user interrupts the diagnostic request. *)
Definition impatient : env :=
  {| html_parser := html_parser Sample.up;
     urlparse_netloc := urlparse_netloc Sample.up;
     tor_answer := Interrupt;
     listing_answer := listing_answer Sample.up;
     site_answer := site_answer Sample.up;
     entry_nap := entry_nap Sample.up;
     page_nap := page_nap Sample.up;
     now := now Sample.up;
     disk_write := disk_write Sample.up |}.

(** Pages arrive, every site answers 404, the disk is full. *)
Definition barren : env :=
  {| html_parser := html_parser Sample.up;
     urlparse_netloc := urlparse_netloc Sample.up;
     tor_answer := Sample.tor_ok;
     listing_answer := listing_answer Sample.up;
     site_answer := fun _ _ _ => Response 404 "" None 0.75%float;
     entry_nap := entry_nap Sample.up;
     page_nap := page_nap Sample.up;
     now := now Sample.up;
     disk_write := fun _ => Torn |}.

(** A document whose [accessible_sites] is a number. *)
Definition counted : file_state :=
  Holds (PDict [("accessible_sites", PInt 5)]).

(** A document with an entry that has lost its [domain]. *)
Definition holed : file_state :=
  Holds (PList [PDict [("url", PStr "http://xyz.onion")]; Sample.abc_probed]).

(** The first probe is interrupted by the user. *)
Definition cut_short : env :=
  {| html_parser := html_parser Sample.up;
     urlparse_netloc := urlparse_netloc Sample.up;
     tor_answer := Sample.tor_ok;
     listing_answer := listing_answer Sample.up;
     site_answer := fun _ _ _ => Interrupt;
     entry_nap := entry_nap Sample.up;
     page_nap := page_nap Sample.up;
     now := now Sample.up;
     disk_write := disk_write Sample.up |}.

(** The pages have no [link_list] at all. *)
Definition blank : env :=
  {| html_parser := fun _ => [Tag "p" [("id", "intro")] [Text "Nothing here"]];
     urlparse_netloc := urlparse_netloc Sample.up;
     tor_answer := Sample.tor_ok;
     listing_answer := listing_answer Sample.up;
     site_answer := site_answer Sample.up;
     entry_nap := entry_nap Sample.up;
     page_nap := page_nap Sample.up;
     now := now Sample.up;
     disk_write := disk_write Sample.up |}.

(** The file's encoding lacks a character of the set: every dump raises
    the encoding error. *)
Definition garbled : env :=
  {| html_parser := html_parser Sample.up;
     urlparse_netloc := urlparse_netloc Sample.up;
     tor_answer := Sample.tor_ok;
     listing_answer := listing_answer Sample.up;
     site_answer := site_answer Sample.up;
     entry_nap := entry_nap Sample.up;
     page_nap := page_nap Sample.up;
     now := now Sample.up;
     disk_write := fun _ => Crashed UnicodeError false |}.

(** The checkers built on those two documents. *)
Definition on_counted : checker := fresh (PInt 5) counted.

Definition on_holed : checker :=
  fresh (PList [PDict [("url", PStr "http://xyz.onion")]; Sample.abc_probed]) holed.

Definition xyz_link : node :=
  Tag "a" [("href", "//xyz.onion/wiki/index.html")] [Text "Wiki"].

Definition bad_link : node :=
  Tag "a" [("href", "http://[abc.onion")] [Text "x"].

(** A container with a good link followed by a bad one, and the world whose
    pages hold it. *)
Definition mixed_list : node :=
  Tag "ul" [("id", "link_list")] [Sample.abc_link; bad_link].

Definition spoiled : env :=
  {| html_parser := fun _ => [Tag "body" [] [mixed_list]];
     urlparse_netloc := urlparse_netloc Sample.up;
     tor_answer := Sample.tor_ok;
     listing_answer := listing_answer Sample.up;
     site_answer := site_answer Sample.up;
     entry_nap := entry_nap Sample.up;
     page_nap := page_nap Sample.up;
     now := now Sample.up;
     disk_write := disk_write Sample.up |}.

End Cases.

(* ------------------------------------------------------------------ *)
(** ** Persistence: [load_existing_sites] and [save_sites] *)

Ltac run_monad :=
  unfold bind, ret, raise, lift, emit, get_sites, isonow; simpl.

Lemma save_sites_list :
  forall (w : env) (st : checker) (l : list pyval),
    accessible_sites st = PList l ->
    save_sites w st =
    (dump_result (disk_write w (clock st)),
     let data := PDict [("last_updated"%string, PStr (now w (clock st)));
                        ("total_accessible_sites"%string, PInt (Z.of_nat (List.length l)));
                        ("accessible_sites"%string, PList l)] in
     {| accessible_sites := PList l;
        disk := written (disk_write w (clock st)) data (disk st);
        clock := S (clock st);
        log := Dump data (disk_write w (clock st)) :: log st |}).
Proof.
  intros w st l H. unfold save_sites. run_monad. rewrite H. reflexivity.
Qed.

Lemma dump_result_cases :
  forall o : write_outcome,
    dump_result o <> OutOfFuel /\
    (dump_result o = Ret tt \/
     exists e b, o = Crashed e b /\ dump_result o = Raise e).
Proof.
  intros o. destruct o; simpl; split; try discriminate; eauto.
Qed.

(** Whatever the state, a call of [save_sites] changes neither the set in
    memory nor the earlier part of the log, and writes at most one document,
    whose entries are the set in memory. *)
Lemma save_sites_effect :
  forall (w : env) (st st' : checker) (r : outcome unit),
    save_sites w st = (r, st') ->
    accessible_sites st' = accessible_sites st /\
    r <> OutOfFuel /\
    ((r = Raise TypeError /\ py_len (accessible_sites st) = None /\
      log st' = log st /\ disk st' = disk st)
     \/
     (exists n stamp,
        r = dump_result (disk_write w (clock st)) /\
        py_len (accessible_sites st) = Some n /\
        let data := PDict [("last_updated"%string, PStr stamp);
                           ("total_accessible_sites"%string, PInt n);
                           ("accessible_sites"%string, accessible_sites st)] in
        log st' = Dump data (disk_write w (clock st)) :: log st /\
        disk st' = written (disk_write w (clock st)) data (disk st))).
Proof.
  intros w st st' r. unfold save_sites. run_monad.
  destruct (py_len (accessible_sites st)) as [n|] eqn:E; intros H;
    inversion H; subst; clear H; simpl; split; auto.
  - split; [apply dump_result_cases|].
    right. exists n, (now w (clock st)). auto.
  - split; [discriminate | auto].
Qed.

(** C3. The document written by [save_sites] for a set held in memory as a
    sequence has its [total_accessible_sites] field equal to the length of
    its [accessible_sites] sequence, which is that set. (The call returns
    normally unless the dump raises something else than an [IOError].) *)
Theorem save_total_is_length :
  forall (w : env) (st : checker) (l : list pyval),
    accessible_sites st = PList l ->
    exists data o st',
      o = disk_write w (clock st) /\
      save_sites w st = (dump_result o, st') /\
      log st' = Dump data o :: log st /\
      disk st' = written o data (disk st) /\
      getitem data "accessible_sites" = Ret (PList l) /\
      getitem data "total_accessible_sites" = Ret (PInt (Z.of_nat (List.length l))).
Proof.
  intros w st l H. rewrite (save_sites_list w st l H).
  do 3 eexists. repeat split.
Qed.

(** C5. When the write goes through, loading what [save_sites] wrote gives
    back the very sequence that was in memory (so the same addresses and the
    same statuses); and a bare array is loaded as the set it lists. *)
Theorem save_then_load :
  forall (w : env) (st : checker) (l : list pyval),
    accessible_sites st = PList l ->
    disk_write w (clock st) = Written ->
    load_existing_sites (disk (snd (save_sites w st))) = Ret (PList l) /\
    load_existing_sites (Holds (PList l)) = Ret (PList l).
Proof.
  intros w st l H Hw. rewrite (save_sites_list w st l H). simpl.
  rewrite Hw. simpl. split; reflexivity.
Qed.

(** C10. An object without the [accessible_sites] field is loaded as the
    empty set. *)
Theorem load_object_without_entries :
  forall d : dict,
    dict_get "accessible_sites" d = None ->
    load_existing_sites (Holds (PDict d)) = Ret (PList []).
Proof.
  intros d H. simpl. rewrite H. reflexivity.
Qed.

(* ------------------------------------------------------------------ *)
(** ** The prober: [test_onion_site_accessibility] *)

Lemma already_tested_known :
  forall (l : list pyval) (d : string),
    Forall is_entry l ->
    In d (addresses l) ->
    already_tested l d = Ret true.
Proof.
  induction l as [|e l IH]; simpl; intros d Hwf Hin.
  - contradiction.
  - inversion Hwf as [|? ? [v Hv] Hl]; subst.
    unfold address_of in Hin. rewrite Hv in *.
    destruct (eq_str v d) eqn:E; [reflexivity|].
    apply IH; [assumption|].
    destruct v; try assumption.
    destruct Hin as [->|Hin]; [|assumption].
    simpl in E. rewrite String.eqb_refl in E. discriminate.
Qed.

Lemma already_tested_fresh :
  forall (l : list pyval) (d : string),
    already_tested l d = Ret false ->
    ~ In d (addresses l).
Proof.
  induction l as [|e l IH]; simpl; intros d H.
  - intros [].
  - unfold address_of.
    destruct (getitem e "domain") as [v| |]; try discriminate.
    destruct (eq_str v d) eqn:E; [discriminate|].
    specialize (IH d H).
    destruct v; try assumption.
    simpl in E. apply String.eqb_neq in E.
    intros [Heq|Hin]; [congruence | contradiction].
Qed.

(** How a call of the prober can end: it never touches the set, the disk or
    the documents written; it returns true only for an address that is not
    in the set, after one request that was answered with status 200. *)
Lemma test_onion_site_accessibility_cases :
  forall (w : env) (page : Z) (i : nat) (s : site_info)
         (st st' : checker) (r : outcome (bool * dict)),
    test_onion_site_accessibility w page i s st = (r, st') ->
    accessible_sites st' = accessible_sites st /\
    disk st' = disk st /\
    snapshots (log st') = snapshots (log st) /\
    naps (log st') = naps (log st) /\
    iterations (log st') = iterations (log st) /\
    forall e, r = Ret (true, e) ->
      (forall l, accessible_sites st = PList l -> ~ In (domain s) (addresses l)) /\
      log st' = Get Probe (url s) :: log st /\
      exists body json elapsed,
        site_answer w page i (url s) = Response 200 body json elapsed /\
        e = probed s (now w (clock st)) elapsed.
Proof.
  intros w page i s st st' r.
  unfold test_onion_site_accessibility. run_monad.
  destruct (py_iter (accessible_sites st)) as [items| |] eqn:Hit;
    try (intros H; inversion H; subst; repeat split; auto; discriminate).
  destruct (already_tested items (domain s)) as [[|]| |] eqn:Hscan;
    try (intros H; inversion H; subst; repeat split; auto; discriminate).
  destruct (site_answer w page i (url s)) as [status body json elapsed| | | |] eqn:Hans;
    try (intros H; inversion H; subst; simpl; repeat split; auto; discriminate).
  destruct (status =? 200) eqn:Hst; simpl;
    intros H; inversion H; subst; simpl; repeat split; auto; try discriminate.
  - intros l Hl. rewrite Hl in Hit. simpl in Hit. inversion Hit; subst.
    apply already_tested_fresh. assumption.
  - apply Z.eqb_eq in Hst. subst status.
    exists body, json, elapsed. split; [reflexivity|].
    inversion H0. reflexivity.
Qed.

Lemma already_tested_total :
  forall (l : list pyval) (d : string), already_tested l d <> OutOfFuel.
Proof.
  induction l as [|x l IH]; simpl; intros d.
  - discriminate.
  - destruct (getitem x "domain") as [v| |] eqn:Hg; try discriminate.
    + destruct (eq_str v d); [discriminate | apply IH].
    + unfold getitem in Hg. destruct x; try discriminate.
      destruct (dict_get "domain" fields); discriminate.
Qed.

Lemma test_onion_site_accessibility_total :
  forall (w : env) (page : Z) (i : nat) (s : site_info) (st : checker),
    fst (test_onion_site_accessibility w page i s st) <> OutOfFuel.
Proof.
  intros w page i s st.
  unfold test_onion_site_accessibility. run_monad.
  destruct (accessible_sites st); simpl; try discriminate.
  - destruct (already_tested (chars s0) (domain s)) as [[|]| |] eqn:Hs;
      simpl; try discriminate.
    + destruct (site_answer w page i (url s)) as [status ? ? ?| | | |];
        simpl; try discriminate.
      destruct (status =? 200); discriminate.
    + exfalso. eapply already_tested_total. eassumption.
  - destruct (already_tested items (domain s)) as [[|]| |] eqn:Hs;
      simpl; try discriminate.
    + destruct (site_answer w page i (url s)) as [status ? ? ?| | | |];
        simpl; try discriminate.
      destruct (status =? 200); discriminate.
    + exfalso. eapply already_tested_total. eassumption.
  - destruct (already_tested _ (domain s)) as [[|]| |] eqn:Hs;
      simpl; try discriminate.
    + destruct (site_answer w page i (url s)) as [status ? ? ?| | | |];
        simpl; try discriminate.
      destruct (status =? 200); discriminate.
    + exfalso. eapply already_tested_total. eassumption.
Qed.

(** C9. When a probe succeeds, the entry it leaves is the candidate's three
    fields, unchanged and in place, followed by exactly three new ones:
    [status] (always ['accessible']), [tested_at] and [response_time]. *)
Theorem probe_success_entry :
  forall (w : env) (page : Z) (i : nat) (s : site_info)
         (st st' : checker) (e : dict),
    test_onion_site_accessibility w page i s st = (Ret (true, e), st') ->
    exists (stamp : string) (elapsed : float),
      e = [("domain"%string, PStr (domain s));
           ("url"%string, PStr (url s));
           ("text"%string, PStr (text s));
           ("status"%string, PStr "accessible");
           ("tested_at"%string, PStr stamp);
           ("response_time"%string, PFloat elapsed)].
Proof.
  intros w page i s st st' e H.
  destruct (test_onion_site_accessibility_cases _ _ _ _ _ _ _ H)
    as (_ & _ & _ & _ & _ & Hok).
  destruct (Hok e eq_refl) as (_ & _ & body & json & elapsed & _ & ->).
  exists (now w (clock st)), elapsed. reflexivity.
Qed.

Lemma already_tested_present :
  forall (l : list pyval) (d : string),
    In d (addresses l) ->
    already_tested l d = Ret true \/ exists e, already_tested l d = Raise e.
Proof.
  intros l d Hin.
  destruct (already_tested l d) as [[|]|e|] eqn:E.
  - left. reflexivity.
  - apply already_tested_fresh in E. contradiction.
  - right. exists e. reflexivity.
  - exfalso. eapply already_tested_total. eassumption.
Qed.

Lemma already_tested_raises :
  forall (l : list pyval) (d : string) (x : exn),
    already_tested l d = Raise x -> x = KeyError \/ x = TypeError.
Proof.
  induction l as [|e l IH]; simpl; intros d x H; [discriminate|].
  destruct (getitem e "domain") as [v|y|] eqn:Hg.
  - destruct (eq_str v d); [discriminate | eapply IH; eassumption].
  - inversion H; subst y. unfold getitem in Hg.
    destruct e; inversion Hg; auto.
    destruct (dict_get "domain" fields); inversion Hg; auto.
  - discriminate.
Qed.

Lemma already_tested_reaches :
  forall (before after : list pyval) (e : pyval) (d : string),
    Forall is_entry before ->
    address_of e = Some d ->
    already_tested (before ++ e :: after) d = Ret true.
Proof.
  induction before as [|x before IH]; simpl; intros after e d Hwf He.
  - unfold address_of in He.
    destruct (getitem e "domain") as [v| |]; try discriminate.
    destruct v; try discriminate. inversion He; subst.
    simpl. rewrite String.eqb_refl. reflexivity.
  - inversion Hwf as [|? ? [v Hv] Hb]; subst. rewrite Hv.
    destruct (eq_str v d); [reflexivity | apply IH; assumption].
Qed.

(** C6 (as amended). For a candidate whose address is already in the set,
    the prober makes no request and leaves the state as it was. It returns
    false when every element the scan meets before an entry with that
    address is an object with a [domain] field; otherwise the scan raises
    [KeyError] or [TypeError]. *)
Theorem probe_known_address :
  forall (w : env) (page : Z) (i : nat) (s : site_info)
         (st : checker) (l : list pyval),
    accessible_sites st = PList l ->
    In (domain s) (addresses l) ->
    snd (test_onion_site_accessibility w page i s st) = st /\
    requests (log (snd (test_onion_site_accessibility w page i s st)))
      = requests (log st) /\
    (fst (test_onion_site_accessibility w page i s st) = Ret (false, as_dict s) \/
     fst (test_onion_site_accessibility w page i s st) = Raise KeyError \/
     fst (test_onion_site_accessibility w page i s st) = Raise TypeError) /\
    (forall before e after,
        l = before ++ e :: after ->
        Forall is_entry before ->
        address_of e = Some (domain s) ->
        fst (test_onion_site_accessibility w page i s st) = Ret (false, as_dict s)).
Proof.
  intros w page i s st l Hl Hin.
  assert (E : test_onion_site_accessibility w page i s st
              = (match already_tested l (domain s) with
                 | Ret _ => Ret (false, as_dict s)
                 | Raise x => Raise x
                 | OutOfFuel => OutOfFuel
                 end, st)).
  { unfold test_onion_site_accessibility. run_monad. rewrite Hl. simpl.
    destruct (already_tested_present l (domain s) Hin) as [Ht|[x Hx]].
    - rewrite Ht. reflexivity.
    - rewrite Hx. reflexivity. }
  rewrite E. simpl. split; [reflexivity|]. split; [reflexivity|]. split.
  - destruct (already_tested l (domain s)) as [b|x|] eqn:Hs.
    + left. reflexivity.
    + right. destruct (already_tested_raises _ _ _ Hs) as [->| ->]; auto.
    + exfalso. eapply already_tested_total. eassumption.
  - intros before e after -> Hwf He.
    rewrite (already_tested_reaches before after e (domain s) Hwf He).
    reflexivity.
Qed.

(* ------------------------------------------------------------------ *)
(** ** The extractor: [extract_onion_sites] *)

Lemma netloc_cases :
  forall (library : string -> option string) (u : string),
    Url.netloc library u <> OutOfFuel /\
    forall e, Url.netloc library u = Raise e -> e = ValueError.
Proof.
  intros library u. unfold Url.netloc, Url.of_library.
  destruct (Url.plain u).
  - destruct (String.prefix "//" (Url.after_scheme u)); cbv zeta.
    + match goal with |- context [xorb ?a ?b] => destruct (xorb a b) end.
      * split; [discriminate | intros e H; inversion H; reflexivity].
      * match goal with |- context [if ?c then _ else _] => destruct c end.
        -- destruct (library u); split; try discriminate;
             intros e H; inversion H; reflexivity.
        -- split; discriminate.
    + split; discriminate.
  - destruct (library u); split; try discriminate;
      intros e H; inversion H; reflexivity.
Qed.

Lemma entry_of_link_raises_value_error :
  forall (w : env) (link : node) (e : exn),
    entry_of_link w link = Raise e -> e = ValueError.
Proof.
  intros w link e. unfold entry_of_link.
  destruct (endswith ".onion" (href_of link) || contains ".onion/" (href_of link));
    [|discriminate].
  match goal with |- context [Url.netloc ?lib ?u] =>
    destruct (netloc_cases lib u) as (_ & Hv);
    destruct (Url.netloc lib u) as [d|x|] eqn:En end.
  - match goal with |- context [negb ?a && ?b] => destruct (negb a && b) end;
      discriminate.
  - intros H. inversion H; subst. apply Hv. reflexivity.
  - discriminate.
Qed.

Lemma entry_of_link_total :
  forall (w : env) (link : node), entry_of_link w link <> OutOfFuel.
Proof.
  intros w link. unfold entry_of_link.
  destruct (endswith ".onion" (href_of link) || contains ".onion/" (href_of link));
    [|discriminate].
  match goal with |- context [Url.netloc ?lib ?u] =>
    destruct (netloc_cases lib u) as (Hn & _);
    destruct (Url.netloc lib u) as [d|x|] eqn:En end.
  - match goal with |- context [negb ?a && ?b] => destruct (negb a && b) end;
      discriminate.
  - discriminate.
  - contradiction.
Qed.


Lemma collect_raises :
  forall (w : env) (links : list node) (acc : list site_info) (e : exn),
    collect w links acc = Raise e <->
    exists l, In l links /\ entry_of_link w l = Raise e.
Proof.
  intros w. induction links as [|link links IH]; intros acc e; simpl.
  - split; [discriminate | intros (l & [] & _)].
  - destruct (entry_of_link w link) as [[e0|]|e1|] eqn:E.
    + rewrite IH. split; intros (l & Hl & Hle).
      * exists l. split; [right; assumption | assumption].
      * destruct Hl as [<-|Hl]; [congruence|]. exists l. split; assumption.
    + rewrite IH. split; intros (l & Hl & Hle).
      * exists l. split; [right; assumption | assumption].
      * destruct Hl as [<-|Hl]; [congruence|]. exists l. split; assumption.
    + split.
      * intros H. inversion H; subst. exists link. split; [left; reflexivity | assumption].
      * intros (l & Hl & Hle).
        apply entry_of_link_raises_value_error in Hle as He.
        apply entry_of_link_raises_value_error in E as He1. congruence.
    + exfalso. eapply entry_of_link_total. eassumption.
Qed.




(* ------------------------------------------------------------------ *)
(** ** The driver: [run_checker] *)

Lemma fetch_onion_listing_page_effect :
  forall (w : env) (page : Z) (st st' : checker) (r : outcome (option string)),
    fetch_onion_listing_page w page st = (r, st') ->
    st' = logged (Get Listing (listing_url page)) st /\
    (r = Raise KeyboardInterrupt \/ exists h, r = Ret h /\ falsy h = negb (fetched w page)).
Proof.
  intros w page st st' r. unfold fetch_onion_listing_page, fetched. run_monad.
  destruct (listing_answer w page) as [status body json elapsed| | | |];
    try (intros H; inversion H; subst; split;
         [reflexivity | (left; reflexivity) || (right; eexists; split; reflexivity)]).
  destruct (status =? 200); intros H; inversion H; subst; split;
    try reflexivity; right; eexists; (split; [reflexivity|]); simpl.
  - rewrite negb_involutive. reflexivity.
  - reflexivity.
Qed.


Lemma bind_cases :
  forall {A B : Type} (m : M A) (k : A -> M B)
         (st st' : checker) (r : outcome B),
    bind m k st = (r, st') ->
    (exists a st1, m st = (Ret a, st1) /\ k a st1 = (r, st')) \/
    (exists e, m st = (Raise e, st') /\ r = Raise e) \/
    (m st = (OutOfFuel, st') /\ r = OutOfFuel).
Proof.
  intros A B m k st st' r. unfold bind.
  destruct (m st) as [[a|e|] st1]; intros H.
  - left. exists a, st1. split; [reflexivity | assumption].
  - inversion H; subst. right; left. exists e. split; reflexivity.
  - inversion H; subst. right; right. split; reflexivity.
Qed.

Ltac bind_split H :=
  let a := fresh "a" in
  let st1 := fresh "st" in
  let e := fresh "e" in
  let Hm := fresh "Hm" in
  let Hk := fresh "Hk" in
  apply bind_cases in H;
  destruct H as [(a & st1 & Hm & Hk) | [(e & Hm & ->) | (Hm & ->)]].

Lemma sleep_effect :
  forall (lo hi : Z) (o : nap_outcome) (st st' : checker) (r : outcome unit),
    sleep lo hi o st = (r, st') ->
    st' = logged (Sleep lo hi) st /\ r <> OutOfFuel.
Proof.
  intros lo hi o st st' r. unfold sleep. run_monad.
  destruct o; intros H; inversion H; subst; split; (reflexivity || discriminate).
Qed.

(** *** Invariants of the crawl *)

Section Invariant.

Context (w : env) (P : checker -> Prop).

Hypothesis P_probe :
  forall st u, P st -> P (logged (Get Probe u) st).
Hypothesis P_listing :
  forall st u, P st -> P (logged (Get Listing u) st).
Hypothesis P_diagnostic :
  forall st u, P st -> P (logged (Get Diagnostic u) st).
Hypothesis P_sleep :
  forall st lo hi, P st -> P (logged (Sleep lo hi) st).
Hypothesis P_clock :
  forall st, P st ->
    P {| accessible_sites := accessible_sites st; disk := disk st;
         clock := S (clock st); log := log st |}.
Hypothesis P_append :
  forall st l s stamp elapsed,
    P st -> accessible_sites st = PList l -> ~ In (domain s) (addresses l) ->
    P {| accessible_sites := PList (l ++ [PDict (probed s stamp elapsed)]);
         disk := disk st; clock := clock st; log := log st |}.
Hypothesis P_save :
  forall st st' r, P st -> save_sites w st = (r, st') -> P st'.

Lemma test_onion_site_accessibility_inv :
  forall page i s st st' r,
    P st -> test_onion_site_accessibility w page i s st = (r, st') -> P st'.
Proof.
  intros page i s st st' r HP.
  unfold test_onion_site_accessibility. run_monad.
  destruct (py_iter (accessible_sites st)) as [items| |];
    try (intros H; inversion H; subst; assumption).
  destruct (already_tested items (domain s)) as [[|]| |];
    try (intros H; inversion H; subst; assumption).
  destruct (site_answer w page i (url s)) as [status body json elapsed| | | |];
    try (intros H; inversion H; subst; apply (P_probe st (url s) HP)).
  destruct (status =? 200); intros H; inversion H; subst.
  - apply (P_clock _ (P_probe st (url s) HP)).
  - apply (P_probe st (url s) HP).
Qed.

Lemma test_each_inv :
  forall delay_range page onion_sites i st st' r,
    P st -> test_each w delay_range page i onion_sites st = (r, st') ->
    P st' /\ r <> OutOfFuel.
Proof.
  intros delay page sites.
  induction sites as [|s rest IH]; intros i st st' r HP H; simpl in H.
  - inversion H; subst. split; [assumption | discriminate].
  - bind_split H.
    + (* the probe returned *)
      pose proof (test_onion_site_accessibility_inv _ _ _ _ _ _ HP Hm) as HP1.
      destruct (test_onion_site_accessibility_cases _ _ _ _ _ _ _ Hm)
        as (Hsites & _ & _ & _ & _ & Hok).
      destruct a as [b e]; simpl in Hk.
      assert (Hmid : forall st2 r2,
                 (if b then append (PDict e) ;; save_sites w else ret tt) st0
                 = (r2, st2) -> P st2 /\ r2 <> OutOfFuel).
      { intros st2 r2 H2. destruct b.
        - destruct (Hok e eq_refl) as (Hfresh & _ & body & json & elapsed & _ & ->).
          bind_split H2.
          + unfold append in Hm0.
            destruct (accessible_sites st0) as [| | | | |l|] eqn:El;
              try discriminate.
            inversion Hm0; subst; clear Hm0.
            assert (HP2 : P {| accessible_sites :=
                                 PList (l ++ [PDict (probed s (now w (clock st)) elapsed)]);
                               disk := disk st0; clock := clock st0; log := log st0 |}).
            { apply (P_append st0 l s _ _ HP1 El).
              apply Hfresh. symmetry. assumption. }
            split; [eapply P_save; eassumption|].
            apply save_sites_effect in Hk0.
            destruct Hk0 as (_ & Hne & _). assumption.
          + unfold append in Hm0.
            destruct (accessible_sites st0); inversion Hm0; subst;
              (split; [assumption | discriminate]).
          + unfold append in Hm0.
            destruct (accessible_sites st0); inversion Hm0.
        - inversion H2; subst. split; [assumption | discriminate]. }
      bind_split Hk.
      * destruct (Hmid _ _ Hm0) as (HP2 & _).
        bind_split Hk0.
        -- apply sleep_effect in Hm1. destruct Hm1 as (-> & _).
           eapply IH; [|eassumption]. apply P_sleep. assumption.
        -- apply sleep_effect in Hm1. destruct Hm1 as (-> & _).
           split; [apply P_sleep; assumption | discriminate].
        -- apply sleep_effect in Hm1. destruct Hm1 as (_ & Hne).
           contradiction Hne. reflexivity.
      * destruct (Hmid _ _ Hm0) as (HP2 & _).
        split; [assumption | discriminate].
      * destruct (Hmid _ _ Hm0) as (_ & Hne). contradiction Hne. reflexivity.
    + split; [|discriminate].
      eapply test_onion_site_accessibility_inv; eassumption.
    + exfalso. eapply test_onion_site_accessibility_total. rewrite Hm. reflexivity.
Qed.

Lemma while_loop_inv :
  forall fuel max_pages delay_range page_number pages_checked st st' r,
    P st ->
    while_loop w fuel max_pages delay_range page_number pages_checked st = (r, st') ->
    P st'.
Proof.
  intros fuel max_pages delay.
  induction fuel as [|fuel IH]; intros page checked st st' r HP H; simpl in H;
    destruct (checked <? max_pages); try (inversion H; subst; assumption).
  bind_split H.
  - apply fetch_onion_listing_page_effect in Hm. destruct Hm as (-> & _).
    pose proof (P_listing st (listing_url page) HP) as HP0.
    destruct (falsy a); [eapply IH; eassumption|].
    bind_split Hk.
    + inversion Hm; subst; clear Hm.
      bind_split Hk0.
      * destruct (test_each_inv _ _ _ _ _ _ _ HP0 Hm) as (HP1 & _).
        bind_split Hk.
        -- eapply IH; [|eassumption].
           destruct (checked + 1 <? max_pages).
           ++ apply sleep_effect in Hm0. destruct Hm0 as (-> & _).
              apply P_sleep. assumption.
           ++ inversion Hm0; subst. assumption.
        -- destruct (checked + 1 <? max_pages).
           ++ apply sleep_effect in Hm0. destruct Hm0 as (-> & _).
              apply P_sleep. assumption.
           ++ inversion Hm0.
        -- destruct (checked + 1 <? max_pages).
           ++ apply sleep_effect in Hm0. destruct Hm0 as (-> & _).
              apply P_sleep. assumption.
           ++ inversion Hm0.
      * destruct (test_each_inv _ _ _ _ _ _ _ HP0 Hm). assumption.
      * destruct (test_each_inv _ _ _ _ _ _ _ HP0 Hm). assumption.
    + inversion Hm; subst. assumption.
    + inversion Hm; subst. assumption.
  - apply fetch_onion_listing_page_effect in Hm. destruct Hm as (-> & _).
    apply P_listing. assumption.
  - apply fetch_onion_listing_page_effect in Hm. destruct Hm as (-> & _).
    apply P_listing. assumption.
Qed.

Lemma test_tor_connection_effect :
  forall st st' (r : outcome bool),
    test_tor_connection w st = (r, st') ->
    st' = logged (Get Diagnostic "http://httpbin.org/ip") st.
Proof.
  intros st st' r. unfold test_tor_connection. run_monad.
  destruct (tor_answer w) as [status body json elapsed| | | |];
    try (intros H; inversion H; reflexivity).
  destruct (status =? 200); [|intros H; inversion H; reflexivity].
  destruct json as [[]|]; intros H; inversion H; reflexivity.
Qed.

Lemma run_checker_inv :
  forall fuel start_page max_pages delay_range st st' r,
    P st ->
    run_checker w fuel start_page max_pages delay_range st = (r, st') ->
    P st'.
Proof.
  intros fuel start max_pages delay st st' r HP H.
  unfold run_checker in H. bind_split H.
  - apply test_tor_connection_effect in Hm. subst st0.
    pose proof (P_diagnostic st "http://httpbin.org/ip" HP) as HP0.
    destruct a; [|inversion Hk; subst; assumption].
    unfold try_finally in Hk.
    destruct (while_loop w fuel max_pages delay start 0
                (logged (Get Diagnostic "http://httpbin.org/ip") st))
      as [[u|e|] st2] eqn:Hloop;
      pose proof (while_loop_inv _ _ _ _ _ _ _ _ HP0 Hloop) as HP2.
    + eapply P_save; eassumption.
    + eapply P_save; eassumption.
    + inversion Hk; subst. assumption.
  - apply test_tor_connection_effect in Hm. subst st'.
    apply P_diagnostic. assumption.
  - apply test_tor_connection_effect in Hm. subst st'.
    apply P_diagnostic. assumption.
Qed.

End Invariant.

(** *** The set stays a sequence *)

Lemma run_keeps_sequence :
  forall (w : env) fuel max_pages delay_range page_number pages_checked st st' r,
    sequence_in_memory st ->
    while_loop w fuel max_pages delay_range page_number pages_checked st = (r, st') ->
    sequence_in_memory st'.
Proof.
  intros w fuel max_pages delay page checked st st' r.
  apply (while_loop_inv w sequence_in_memory); unfold sequence_in_memory; simpl;
    try (intros; assumption).
  - intros st0 l s stamp elapsed _ _ _. eexists. reflexivity.
  - intros st0 st1 r0 [l Hl] H. apply save_sites_effect in H.
    destruct H as (-> & _). exists l. assumption.
Qed.

Lemma loop_keeps_sized :
  forall (w : env) fuel max_pages delay_range page_number pages_checked st st' r,
    sized st ->
    while_loop w fuel max_pages delay_range page_number pages_checked st = (r, st') ->
    sized st'.
Proof.
  intros w fuel max_pages delay page checked st st' r.
  apply (while_loop_inv w sized); unfold sized; simpl; try (intros; assumption).
  - intros; discriminate.
  - intros st0 st1 r0 Hs H. apply save_sites_effect in H.
    destruct H as (-> & _). assumption.
Qed.

(** C4 (as amended). Once the connectivity check has passed, however the
    loop ends, by reaching the page bound, by an interrupt or by any other
    exception raised inside it, the run goes on with [save_sites] on the
    state [st2] the loop ended in, and nothing else. When the set in memory
    has a length [n], that call dumps, with the outcome the disk gives at
    that moment, the document made of the stamp, [n] and the set: the dump
    is logged, the file becomes what that outcome makes of it (the document
    itself for a completed write), the set in memory is unchanged and the
    run returns normally unless the dump raised something else than an
    [IOError]. When the set has no length, the run raises [TypeError] and
    nothing is dumped. A set that is a sequence, or has a length, at the
    start still is or has one when the loop ends. *)
Theorem final_persist_on_every_exit :
  forall (w : env) (fuel : nat) (start_page max_pages : Z) (delay_range : Z * Z)
         (st st1 st2 : checker) (r : outcome unit),
    test_tor_connection w st = (Ret true, st1) ->
    while_loop w fuel max_pages delay_range start_page 0 st1 = (r, st2) ->
    (r = Ret tt \/ r = Raise KeyboardInterrupt \/
     exists e, e <> KeyboardInterrupt /\ r = Raise e) ->
    run_checker w fuel start_page max_pages delay_range st = save_sites w st2 /\
    (forall n, py_len (accessible_sites st2) = Some n ->
       let o := disk_write w (clock st2) in
       let data := PDict [("last_updated"%string, PStr (now w (clock st2)));
                          ("total_accessible_sites"%string, PInt n);
                          ("accessible_sites"%string, accessible_sites st2)] in
       exists stf,
         run_checker w fuel start_page max_pages delay_range st = (dump_result o, stf) /\
         log stf = Dump data o :: log st2 /\
         disk stf = written o data (disk st2) /\
         (o = Written -> disk stf = Holds data) /\
         accessible_sites stf = accessible_sites st2 /\
         ((forall e b, o <> Crashed e b) -> dump_result o = Ret tt)) /\
    (py_len (accessible_sites st2) = None ->
       exists stf,
         run_checker w fuel start_page max_pages delay_range st = (Raise TypeError, stf) /\
         log stf = log st2 /\ disk stf = disk st2 /\
         accessible_sites stf = accessible_sites st2) /\
    (sized st -> sized st2) /\
    (sequence_in_memory st -> sequence_in_memory st2).
Proof.
  intros w fuel start max_pages delay st st1 st2 r Htor Hloop Hr.
  assert (Hrun : run_checker w fuel start max_pages delay st = save_sites w st2).
  { unfold run_checker, bind. rewrite Htor. unfold try_finally. rewrite Hloop.
    destruct Hr as [-> | [-> | (e & _ & ->)]]; reflexivity. }
  apply test_tor_connection_effect in Htor. subst st1.
  split; [assumption|]. rewrite Hrun. split; [|split; [|split]].
  - intros n Hn o data. unfold save_sites. run_monad. rewrite Hn.
    eexists. split; [reflexivity|]. simpl. repeat split.
    + intros Ho. subst o data. rewrite Ho. reflexivity.
    + intros Hc. subst o. destruct (disk_write w (clock st2)); try reflexivity.
      exfalso. eapply Hc. reflexivity.
  - intros Hn. unfold save_sites. run_monad. rewrite Hn.
    eexists. split; [reflexivity|]. repeat split.
  - intros Hs. eapply loop_keeps_sized; [|eassumption]. assumption.
  - intros Hs. eapply run_keeps_sequence; [|eassumption]. assumption.
Qed.

(** *** No address twice *)

Lemma addresses_app :
  forall l1 l2 : list pyval, addresses (l1 ++ l2) = addresses l1 ++ addresses l2.
Proof.
  induction l1 as [|e l1 IH]; intros l2; simpl.
  - reflexivity.
  - destruct (address_of e); simpl; rewrite IH; reflexivity.
Qed.

Lemma NoDup_snoc :
  forall (l : list string) (a : string), NoDup l -> ~ In a l -> NoDup (l ++ [a]).
Proof.
  induction l as [|x l IH]; intros a Hnd Hni; simpl.
  - constructor; [intros [] | constructor].
  - inversion Hnd as [|? ? Hx Hl]; subst. constructor.
    + intros Hin. apply in_app_or in Hin. destruct Hin as [Hin|[->|[]]].
      * contradiction.
      * apply Hni. left. reflexivity.
    + apply IH; [assumption|]. intros Hin. apply Hni. right. assumption.
Qed.

Lemma tidy_save :
  forall (w : env) (st st' : checker) (r : outcome unit),
    tidy st -> save_sites w st = (r, st') -> tidy st'.
Proof.
  intros w st st' r (Hmem & Hdocs & Hdisk) H.
  apply save_sites_effect in H.
  destruct H as (Hs & _ & [(_ & _ & Hlog & Hd) | (n & stamp & _ & _ & Hlog & Hd)]);
    unfold tidy; rewrite Hs, Hlog, Hd.
  - auto.
  - split; [assumption|]. split.
    + simpl. constructor; assumption.
    + destruct (disk_write w (clock st)) as [| | | |e [|]]; simpl;
        try assumption; try discriminate;
        intros v Hv; inversion Hv; subst; try assumption; constructor.
Qed.

Lemma run_keeps_tidy :
  forall (w : env) fuel start_page max_pages delay_range st st' r,
    tidy st ->
    run_checker w fuel start_page max_pages delay_range st = (r, st') ->
    tidy st'.
Proof.
  intros w fuel start max_pages delay st st' r.
  apply (run_checker_inv w tidy); unfold tidy; simpl;
    try (intros; assumption).
  - intros st0 l s stamp elapsed (Hmem & Hdocs & Hdisk) Hl Hfresh.
    split; [|split; assumption].
    unfold unique_addresses in *. rewrite Hl in Hmem. simpl in *.
    rewrite addresses_app. apply NoDup_snoc; assumption.
  - apply tidy_save.
Qed.

(** C2 (as amended). If the document found at start lists no address twice
    (or there is none), then whatever the run does and however far it gets,
    every document it writes lists each address at most once, and so do the
    set in memory and what is left on the disk. *)
Theorem no_duplicate_address_persisted :
  forall (w : env) (fuel : nat) (start_page max_pages : Z) (delay_range : Z * Z)
         (f : file_state) (st : checker),
    init f = Ret st ->
    unique_addresses (accessible_sites st) ->
    let st' := snd (run_checker w fuel start_page max_pages delay_range st) in
    Forall (fun data => NoDup (addresses (document_entries data)))
           (snapshots (log st')) /\
    (forall v, load_existing_sites (disk st') = Ret v -> unique_addresses v) /\
    unique_addresses (accessible_sites st').
Proof.
  intros w fuel start max_pages delay f st Hinit Hf st'.
  assert (Ht : tidy st').
  { subst st'.
    destruct (run_checker w fuel start max_pages delay st) as [r st1] eqn:E.
    eapply run_keeps_tidy; [|exact E].
    unfold init in Hinit.
    destruct (load_existing_sites f) as [v| |] eqn:El; inversion Hinit; subst.
    unfold tidy, fresh in *; simpl in *. split; [assumption|].
    split; [constructor|]. intros v' Hv'. congruence. }
  destruct Ht as (Hmem & Hdocs & Hdisk). auto.
Qed.

(** *** Termination of the loop *)

Lemma collect_total :
  forall (w : env) (links : list node) (acc : list site_info),
    collect w links acc <> OutOfFuel.
Proof.
  intros w. induction links as [|link links IH]; intros acc; simpl.
  - discriminate.
  - destruct (entry_of_link w link) as [[e|]| |] eqn:E;
      try apply IH; try discriminate.
    exfalso. eapply entry_of_link_total. eassumption.
Qed.

Lemma extract_onion_sites_total :
  forall (w : env) (html_content : string),
    extract_onion_sites w html_content <> OutOfFuel.
Proof.
  intros w html. unfold extract_onion_sites, extract_from_soup.
  destruct (find_id "link_list" (html_parser w html)).
  - apply collect_total.
  - discriminate.
Qed.

Lemma test_each_total :
  forall (w : env) delay_range page onion_sites i st,
    fst (test_each w delay_range page i onion_sites st) <> OutOfFuel.
Proof.
  intros w delay page sites i st.
  destruct (test_each w delay page i sites st) as [r st'] eqn:E.
  refine (proj2 (test_each_inv w (fun _ => True) _ _ _ _ _
                   delay page sites i st st' r I E)); auto.
Qed.

Lemma test_each_iterations :
  forall (w : env) delay_range page onion_sites i st st' r,
    test_each w delay_range page i onion_sites st = (r, st') ->
    iterations (log st') = iterations (log st).
Proof.
  intros w delay page sites i st st' r E.
  refine (proj1 (test_each_inv w (fun s => iterations (log s) = iterations (log st))
                   _ _ _ _ _ delay page sites i st st' r eq_refl E)); auto.
  intros s0 s1 r0 H0 H. apply save_sites_effect in H.
  destruct H as (_ & _ & [(_ & _ & -> & _) | (n & stamp & _ & _ & -> & _)]);
    simpl; assumption.
Qed.

Lemma while_loop_terminates :
  forall (w : env) (max_pages : Z) (delay_range : Z * Z)
         (fuel : nat) (page_number pages_checked : Z) (st : checker),
    max_pages - pages_checked
      <= Z.of_nat fuel - Z.of_nat (skipped w page_number fuel) ->
    fst (while_loop w fuel max_pages delay_range page_number pages_checked st)
      <> OutOfFuel.
Proof.
  intros w max_pages delay.
  induction fuel as [|fuel IH]; intros page checked st H;
    simpl; destruct (checked <? max_pages) eqn:E;
    try discriminate.
  - apply Z.ltb_lt in E. simpl in H. lia.
  - apply Z.ltb_lt in E. cbn [skipped] in H.
    unfold bind at 1.
    destruct (fetch_onion_listing_page w page st) as [[h|e|] st0] eqn:F;
      try discriminate.
    + destruct (fetch_onion_listing_page_effect _ _ _ _ _ F) as (_ & [Hr|(h' & Hr & Hf)]);
        [discriminate|].
      inversion Hr; subst h'; clear Hr.
      destruct (falsy h).
      * apply IH. destruct (fetched w page); [discriminate|]. lia.
      * destruct (fetched w page); [|discriminate].
        unfold bind at 1. unfold lift at 1.
        pose proof (extract_onion_sites_total w (markup h)) as Hx.
        destruct (extract_onion_sites w (markup h)) as [sites|e|];
          try discriminate; [|contradiction].
        unfold bind at 1.
        pose proof (test_each_total w delay page sites 0%nat st0) as Ht.
        destruct (test_each w delay page 0 sites st0) as [[u|e|] st1];
          try discriminate; [|contradiction].
        unfold bind at 1.
        destruct (checked + 1 <? max_pages).
        -- destruct (sleep 15 30 (page_nap w page) st1) as [[u'|e|] st2] eqn:S;
             try discriminate.
           ++ apply IH. lia.
           ++ apply sleep_effect in S. destruct S as (_ & S). contradiction.
        -- simpl. apply IH. lia.
    + destruct (fetch_onion_listing_page_effect _ _ _ _ _ F) as (_ & [Hr|(h' & Hr & Hf)]);
        discriminate.
Qed.

Lemma while_loop_iterations :
  forall (w : env) (max_pages : Z) (delay_range : Z * Z)
         (fuel : nat) (page_number pages_checked : Z) (st st' : checker)
         (r : outcome unit),
    while_loop w fuel max_pages delay_range page_number pages_checked st = (r, st') ->
    (iterations (log st') <= iterations (log st) + fuel)%nat.
Proof.
  intros w max_pages delay.
  induction fuel as [|fuel IH]; intros page checked st st' r H; simpl in H;
    destruct (checked <? max_pages); try (inversion H; subst; lia).
  bind_split H.
  - apply fetch_onion_listing_page_effect in Hm. destruct Hm as (-> & _).
    destruct (falsy a); [apply IH in Hk; simpl in Hk; lia|].
    bind_split Hk; try (inversion Hm; subst; simpl; lia).
    inversion Hm; subst; clear Hm.
    bind_split Hk0; try (apply test_each_iterations in Hm; simpl in Hm; lia).
    apply test_each_iterations in Hm. simpl in Hm.
    assert (Hs : forall (r2 : outcome unit) (s1 s2 : checker),
               (if checked + 1 <? max_pages
                then sleep 15 30 (page_nap w page) else ret tt) s1 = (r2, s2) ->
               iterations (log s2) = iterations (log s1)).
    { intros r2 s1 s2 H2. destruct (checked + 1 <? max_pages).
      - apply sleep_effect in H2. destruct H2 as (-> & _). reflexivity.
      - inversion H2; subst. reflexivity. }
    bind_split Hk; try (apply Hs in Hm0; lia).
    apply Hs in Hm0. apply IH in Hk0. lia.
  - apply fetch_onion_listing_page_effect in Hm. destruct Hm as (-> & _).
    simpl. lia.
  - apply fetch_onion_listing_page_effect in Hm. destruct Hm as (-> & _).
    simpl. lia.
Qed.

(** C1 (as amended). A page whose fetch fails is passed over without
    counting towards [max_pages]. If at most [k] of the first
    [max_pages + k] pages from [start_page] on fail to arrive, the run ends
    (by reaching the bound, an interrupt or an exception) within
    [max_pages + k] iterations of the loop. *)
Theorem crawl_ends_within_bound_plus_failures :
  forall (w : env) (k : nat) (start_page max_pages : Z) (delay_range : Z * Z)
         (st : checker),
    (skipped w start_page (Z.to_nat max_pages + k) <= k)%nat ->
    let fuel := (Z.to_nat max_pages + k)%nat in
    fst (run_checker w fuel start_page max_pages delay_range st) <> OutOfFuel /\
    (iterations (log (snd (run_checker w fuel start_page max_pages delay_range st)))
       <= iterations (log st) + (Z.to_nat max_pages + k))%nat.
Proof.
  intros w k start max_pages delay st Hk fuel.
  unfold run_checker, bind.
  destruct (test_tor_connection w st) as [[ok|e|] st0] eqn:Htor;
    pose proof (test_tor_connection_effect w _ _ _ Htor) as ->; simpl.
  - destruct ok; simpl; [|split; [discriminate | lia]].
    unfold try_finally.
    pose proof (while_loop_terminates w max_pages delay fuel start 0
                  (logged (Get Diagnostic "http://httpbin.org/ip") st)) as Hterm.
    destruct (while_loop w fuel max_pages delay start 0
                (logged (Get Diagnostic "http://httpbin.org/ip") st))
      as [[u|e|] st2] eqn:Hloop; simpl in Hterm.
    + apply while_loop_iterations in Hloop. simpl in Hloop.
      destruct (save_sites w st2) as [r3 st3] eqn:Hs. simpl.
      apply save_sites_effect in Hs.
      destruct Hs as (_ & Hne & [(_ & _ & -> & _) | (n & stamp & _ & _ & -> & _)]);
        simpl; (split; assumption).
    + apply while_loop_iterations in Hloop. simpl in Hloop.
      destruct (save_sites w st2) as [r3 st3] eqn:Hs. simpl.
      apply save_sites_effect in Hs.
      destruct Hs as (_ & Hne & [(_ & _ & -> & _) | (n & stamp & _ & _ & -> & _)]);
        simpl; (split; assumption).
    + exfalso. apply Hterm; [|reflexivity]. subst fuel. lia.
  - split; [discriminate | lia].
  - split; [|lia]. exfalso. revert Htor.
    unfold test_tor_connection. run_monad.
    destruct (tor_answer w) as [status ? json ?| | | |]; try discriminate.
    destruct (status =? 200); [|discriminate].
    destruct json as [[]|]; discriminate.
Qed.

(* ------------------------------------------------------------------ *)
(** ** The properties at work on the samples *)

(** The sample checkers are what the constructor builds on the sample
    files. *)
Example sample_checkers_are_built :
  init Absent = Ret Sample.new /\
  init (Holds (PList [Sample.abc_probed])) = Ret Sample.knows_abc /\
  init Sample.legacy_twice = Ret Sample.knows_abc_twice /\
  init Cases.counted = Ret Cases.on_counted /\
  init Cases.holed = Ret Cases.on_holed /\
  init (Unloadable UnicodeError) = Raise UnicodeError.
Proof. repeat split. Qed.

Lemma save_total_is_length_witness :
  accessible_sites Sample.knows_abc = PList [Sample.abc_probed] /\
  exists data o st',
    o = disk_write Sample.up (clock Sample.knows_abc) /\
    save_sites Sample.up Sample.knows_abc = (dump_result o, st') /\
    log st' = Dump data o :: log Sample.knows_abc /\
    disk st' = written o data (disk Sample.knows_abc) /\
    getitem data "accessible_sites" = Ret (PList [Sample.abc_probed]) /\
    getitem data "total_accessible_sites" = Ret (PInt 1).
Proof.
  split; [reflexivity|].
  apply (save_total_is_length Sample.up Sample.knows_abc [Sample.abc_probed]).
  reflexivity.
Defined.

Lemma save_then_load_witness :
  accessible_sites Sample.knows_abc = PList [Sample.abc_probed] /\
  disk_write Sample.up (clock Sample.knows_abc) = Written /\
  load_existing_sites (disk (snd (save_sites Sample.up Sample.knows_abc)))
    = Ret (PList [Sample.abc_probed]) /\
  load_existing_sites (Holds (PList [Sample.abc_probed]))
    = Ret (PList [Sample.abc_probed]).
Proof.
  split; [reflexivity|]. split; [reflexivity|].
  apply (save_then_load Sample.up Sample.knows_abc [Sample.abc_probed]);
    reflexivity.
Defined.

Lemma load_object_without_entries_witness :
  dict_get "accessible_sites" [("last_updated"%string, PStr "2024-01-01")] = None /\
  load_existing_sites (Holds (PDict [("last_updated"%string, PStr "2024-01-01")]))
    = Ret (PList []).
Proof.
  split; [reflexivity|].
  apply load_object_without_entries. reflexivity.
Defined.

(** *** C6: a known address behind an entry without a domain *)

(** C6, counterexample. The set loaded from [Cases.holed] holds the address
    [abc.onion], after an entry that has no [domain] field. Probing the
    candidate [abc.onion] makes no request, yet it does not return: the scan
    raises [KeyError] at the first entry. *)
Lemma known_address_behind_a_broken_entry :
  init Cases.holed = Ret Cases.on_holed /\
  In (domain Sample.abc) (addresses (entries_of (accessible_sites Cases.on_holed))) /\
  test_onion_site_accessibility Sample.up 0 0 Sample.abc Cases.on_holed
    = (Raise KeyError, Cases.on_holed).
Proof.
  split; [reflexivity|]. split; [left; reflexivity | reflexivity].
Qed.

Lemma probe_known_address_witness :
  accessible_sites Sample.knows_abc = PList [Sample.abc_probed] /\
  In (domain Sample.abc) (addresses [Sample.abc_probed]) /\
  Forall is_entry [] /\
  address_of Sample.abc_probed = Some (domain Sample.abc) /\
  snd (test_onion_site_accessibility Sample.up 0 0 Sample.abc Sample.knows_abc)
    = Sample.knows_abc /\
  requests (log (snd (test_onion_site_accessibility Sample.up 0 0 Sample.abc
                        Sample.knows_abc)))
    = requests (log Sample.knows_abc) /\
  fst (test_onion_site_accessibility Sample.up 0 0 Sample.abc Sample.knows_abc)
    = Ret (false, as_dict Sample.abc).
Proof.
  assert (Hin : In (domain Sample.abc) (addresses [Sample.abc_probed])).
  { left. reflexivity. }
  split; [reflexivity|]. split; [exact Hin|]. split; [constructor|].
  split; [reflexivity|].
  destruct (probe_known_address Sample.up 0 0%nat Sample.abc Sample.knows_abc
              [Sample.abc_probed] eq_refl Hin) as (Hst & Hreq & _ & Hret).
  split; [exact Hst|]. split; [exact Hreq|].
  exact (Hret [] Sample.abc_probed [] eq_refl (Forall_nil _) eq_refl).
Defined.

Lemma probe_success_entry_witness :
  test_onion_site_accessibility Sample.up 0 0 Sample.abc Sample.new
    = (Ret (true, probed Sample.abc (now Sample.up 0) 2.5%float),
       snd (test_onion_site_accessibility Sample.up 0 0 Sample.abc Sample.new)) /\
  exists (stamp : string) (elapsed : float),
    probed Sample.abc (now Sample.up 0) 2.5%float
    = [("domain"%string, PStr (domain Sample.abc));
       ("url"%string, PStr (url Sample.abc));
       ("text"%string, PStr (text Sample.abc));
       ("status"%string, PStr "accessible");
       ("tested_at"%string, PStr stamp);
       ("response_time"%string, PFloat elapsed)].
Proof.
  split; [reflexivity|].
  apply (probe_success_entry Sample.up 0 0%nat Sample.abc Sample.new
           (snd (test_onion_site_accessibility Sample.up 0 0 Sample.abc Sample.new))).
  reflexivity.
Defined.

(** *** C7: an [abc.onion] link beside a link [urlparse] refuses *)



(** On the sample page the extractor returns the [abc.onion] entry and
    nothing for [notonion.com]. *)
Example extract_sample_page :
  extract_onion_sites Sample.up "<html>...</html>" = Ret [Sample.abc].
Proof. reflexivity. Qed.


(** *** C4: a final save that writes nothing *)

(** C4, counterexample. The document [Cases.counted] gives its
    [accessible_sites] as the number 5, which the constructor takes as the
    set. The run passes the connectivity check, the loop ends by the
    [TypeError] of the prober's scan, and the final [save_sites] raises
    [TypeError] at [len] before the file is opened: the run exits with
    nothing dumped and the file as it was. *)
Lemma final_save_can_write_nothing :
  init Cases.counted = Ret Cases.on_counted /\
  fst (test_tor_connection Sample.up Cases.on_counted) = Ret true /\
  fst (while_loop Sample.up 1 1 (5, 15) 0 0
         (snd (test_tor_connection Sample.up Cases.on_counted))) = Raise TypeError /\
  fst (run_checker Sample.up 1 0 1 (5, 15) Cases.on_counted) = Raise TypeError /\
  snapshots (log (snd (run_checker Sample.up 1 0 1 (5, 15) Cases.on_counted))) = [] /\
  disk (snd (run_checker Sample.up 1 0 1 (5, 15) Cases.on_counted)) = Cases.counted.
Proof. repeat split. Qed.

Lemma final_persist_on_every_exit_witness :
  test_tor_connection Sample.up Sample.new = (Ret true, Sample.started) /\
  while_loop Sample.up 1 1 (5, 15) 0 0 Sample.started = (Ret tt, Sample.crawled) /\
  py_len (accessible_sites Sample.crawled) = Some 1 /\
  run_checker Sample.up 1 0 1 (5, 15) Sample.new
    = save_sites Sample.up Sample.crawled /\
  exists stf,
    run_checker Sample.up 1 0 1 (5, 15) Sample.new = (Ret tt, stf) /\
    log stf
    = Dump (PDict [("last_updated"%string, PStr (now Sample.up (clock Sample.crawled)));
                   ("total_accessible_sites"%string, PInt 1);
                   ("accessible_sites"%string, accessible_sites Sample.crawled)])
           Written :: log Sample.crawled /\
    disk stf
    = Holds (PDict [("last_updated"%string, PStr (now Sample.up (clock Sample.crawled)));
                    ("total_accessible_sites"%string, PInt 1);
                    ("accessible_sites"%string, accessible_sites Sample.crawled)]).
Proof.
  split; [reflexivity|]. split; [reflexivity|]. split; [reflexivity|].
  destruct (final_persist_on_every_exit Sample.up 1 0 1 (5, 15) Sample.new
              Sample.started Sample.crawled (Ret tt) eq_refl eq_refl
              (or_introl eq_refl)) as (Hrun & Hdump & _).
  split; [exact Hrun|].
  destruct (Hdump 1 eq_refl) as (stf & Hr & Hlog & _ & Hw & _).
  exists stf. split; [exact Hr|]. split; [exact Hlog | exact (Hw eq_refl)].
Defined.

(** The two other exits: an interrupt during a sleep, and a [ValueError]
    raised by [urlparse] inside the extractor. Both runs return normally
    with a dump as the last thing done. *)
Example interrupt_then_dump :
  fst (while_loop Sample.interrupted 1 1 (5, 15) 0 0 Sample.started)
    = Raise KeyboardInterrupt /\
  fst (run_checker Sample.interrupted 1 0 1 (5, 15) Sample.new) = Ret tt /\
  match log (snd (run_checker Sample.interrupted 1 0 1 (5, 15) Sample.new)) with
  | Dump data Written :: Sleep 5 15 :: _ => py_len (PList (document_entries data)) = Some 1
  | _ => False
  end.
Proof. repeat split. Qed.

Example exception_then_dump :
  fst (while_loop Sample.broken 1 1 (5, 15) 0 0 Sample.started) = Raise ValueError /\
  fst (run_checker Sample.broken 1 0 1 (5, 15) Sample.new) = Ret tt /\
  match log (snd (run_checker Sample.broken 1 0 1 (5, 15) Sample.new)) with
  | Dump data Written :: Get Listing _ :: _ => document_entries data = []
  | _ => False
  end.
Proof. repeat split. Qed.

(** When the connectivity check fails nothing is fetched and nothing is
    written. *)
Example aborted_run_is_silent :
  forall (w : env) fuel start_page max_pages delay_range st,
    fst (test_tor_connection w st) = Ret false ->
    run_checker w fuel start_page max_pages delay_range st
    = (Ret tt, logged (Get Diagnostic "http://httpbin.org/ip") st).
Proof.
  intros w fuel start max_pages delay st H.
  unfold run_checker, bind.
  destruct (test_tor_connection w st) as [r st1] eqn:E. simpl in H. subst r.
  apply test_tor_connection_effect in E. subst st1. reflexivity.
Qed.

(** *** C2: a document that already lists an address twice *)

(** C2, counterexample. A run that starts from the legacy document
    [Sample.legacy_twice] writes a document in which [abc.onion] occurs
    twice: loading does not remove duplicates, and the prober's scan only
    keeps new ones out. *)
Lemma legacy_duplicates_are_persisted :
  init Sample.legacy_twice = Ret Sample.knows_abc_twice /\
  ~ Forall (fun data => NoDup (addresses (document_entries data)))
      (snapshots (log (snd (run_checker Sample.up 1 0 1 (5, 15)
                              Sample.knows_abc_twice)))).
Proof.
  split; [reflexivity|].
  intros H. vm_compute in H.
  inversion H as [|data rest Hd _]; subst.
  vm_compute in Hd.
  inversion Hd as [|a l Hn _]; subst.
  apply Hn. left. reflexivity.
Qed.

Lemma no_duplicate_address_persisted_witness :
  init (Holds (PList [Sample.abc_probed])) = Ret Sample.knows_abc /\
  unique_addresses (accessible_sites Sample.knows_abc) /\
  Forall (fun data => NoDup (addresses (document_entries data)))
    (snapshots (log (snd (run_checker Sample.up 2 0 2 (5, 15) Sample.knows_abc)))) /\
  (forall v,
      load_existing_sites
        (disk (snd (run_checker Sample.up 2 0 2 (5, 15) Sample.knows_abc))) = Ret v ->
      unique_addresses v) /\
  unique_addresses
    (accessible_sites (snd (run_checker Sample.up 2 0 2 (5, 15) Sample.knows_abc))).
Proof.
  assert (Hu : unique_addresses (accessible_sites Sample.knows_abc)).
  { constructor; [intros [] | constructor]. }
  split; [reflexivity|]. split; [exact Hu|].
  exact (no_duplicate_address_persisted Sample.up 2 0 2 (5, 15)
           (Holds (PList [Sample.abc_probed])) Sample.knows_abc eq_refl Hu).
Defined.

(** *** C1: a directory that never answers *)

Lemma down_never_ends :
  forall (fuel : nat) (page_number : Z) (st : checker),
    fst (while_loop Sample.down fuel 1 (5, 15) page_number 0 st) = OutOfFuel.
Proof.
  induction fuel as [|fuel IH]; intros page st.
  - reflexivity.
  - change (while_loop Sample.down (S fuel) 1 (5, 15) page 0 st)
      with (while_loop Sample.down fuel 1 (5, 15) (page + 1) 0
              (logged (Get Listing (listing_url page)) st)).
    apply IH.
Qed.

(** C1, counterexample. With [max_pages = 1] and a directory that answers
    503 to every page, the run passes the connectivity check and then never
    reaches the bound: whatever the fuel, the loop is still going, and after
    seven iterations seven pages have been asked for. *)
Lemma crawl_need_not_end :
  fst (test_tor_connection Sample.down Sample.new) = Ret true /\
  (forall fuel : nat,
      fst (run_checker Sample.down fuel 1 1 (5, 15) Sample.new) = OutOfFuel) /\
  iterations (log (snd (run_checker Sample.down 7 1 1 (5, 15) Sample.new))) = 7%nat.
Proof.
  split; [reflexivity|]. split; [|reflexivity].
  intros fuel. unfold run_checker, bind. simpl.
  unfold try_finally.
  pose proof (down_never_ends fuel 1
                (logged (Get Diagnostic "http://httpbin.org/ip") Sample.new)) as H.
  destruct (while_loop Sample.down fuel 1 (5, 15) 1 0
              (logged (Get Diagnostic "http://httpbin.org/ip") Sample.new))
    as [r st2].
  simpl in H. subst r. reflexivity.
Qed.

Lemma crawl_ends_within_bound_plus_failures_witness :
  (skipped Sample.flaky 0 (Z.to_nat 1 + 1) <= 1)%nat /\
  fst (run_checker Sample.flaky (Z.to_nat 1 + 1) 0 1 (5, 15) Sample.knows_abc)
    <> OutOfFuel /\
  (iterations (log (snd (run_checker Sample.flaky (Z.to_nat 1 + 1) 0 1 (5, 15)%Z
                           Sample.knows_abc)))
     <= iterations (log Sample.knows_abc) + (Z.to_nat 1 + 1))%nat.
Proof.
  assert (H : (skipped Sample.flaky 0 (Z.to_nat 1 + 1) <= 1)%nat).
  { vm_compute. apply le_n. }
  split; [exact H|].
  exact (crawl_ends_within_bound_plus_failures Sample.flaky 1 0 1 (5, 15)
           Sample.knows_abc H).
Defined.

(* ------------------------------------------------------------------ *)
(** ** Further properties *)

(** *** Strings and network locations *)


Lemma substring_whole :
  forall s : string, substring 0 (String.length s) s = s.
Proof.
  induction s as [|c s IH]; simpl; [reflexivity | rewrite IH; reflexivity].
Qed.

Lemma substring_split :
  forall (s : string) (n : nat),
    (n <= String.length s)%nat ->
    s = (substring 0 n s ++ substring n (String.length s - n) s)%string.
Proof.
  induction s as [|c s IH]; intros n Hn; simpl in *.
  - destruct n; [reflexivity | lia].
  - destruct n as [|n]; simpl.
    + rewrite substring_whole. reflexivity.
    + rewrite <- IH by lia. reflexivity.
Qed.

Lemma endswith_split :
  forall suf s : string,
    endswith suf s = true -> exists pre, s = (pre ++ suf)%string.
Proof.
  intros suf s H. unfold endswith in H.
  apply andb_true_iff in H. destruct H as [Hle Heq].
  apply Nat.leb_le in Hle. apply String.eqb_eq in Heq.
  exists (substring 0 (String.length s - String.length suf) s).
  pose proof (substring_split s (String.length s - String.length suf)
                (Nat.le_sub_l _ _)) as Hs.
  replace (String.length s - (String.length s - String.length suf))%nat
    with (String.length suf) in Hs by lia.
  rewrite Heq in Hs. exact Hs.
Qed.

Lemma prefix_refl_app :
  forall a b : string, String.prefix a (a ++ b) = true.
Proof.
  induction a as [|c a IH]; intros b; simpl; [destruct b; reflexivity|].
  destruct (ascii_dec c c); [apply IH | congruence].
Qed.

Lemma contains_app_r :
  forall sub pre s : string,
    contains sub s = true -> contains sub (pre ++ s) = true.
Proof.
  intros sub pre s H. induction pre as [|c pre IH]; simpl; [assumption|].
  rewrite IH. apply orb_true_r.
Qed.

Lemma contains_prefix :
  forall sub s : string, String.prefix sub s = true -> contains sub s = true.
Proof.
  intros sub s H. destruct s; simpl in *; rewrite H; reflexivity.
Qed.

Lemma prefix_shorter :
  forall a b s : string, String.prefix (a ++ b) s = true -> String.prefix a s = true.
Proof.
  induction a as [|c a IH]; intros b s H; simpl in *; [destruct s; reflexivity|].
  destruct s as [|d s]; simpl in *; [discriminate|].
  destruct (ascii_dec c d); [eapply IH; eassumption | discriminate].
Qed.

Lemma contains_shorter :
  forall a b s : string, contains (a ++ b) s = true -> contains a s = true.
Proof.
  intros a b. induction s as [|c s IH]; intros H.
  - change (String.prefix (a ++ b) "" || false = true) in H.
    change (String.prefix a "" || false = true).
    rewrite orb_false_r in *. eapply prefix_shorter. eassumption.
  - change (String.prefix (a ++ b) (String c s) || contains (a ++ b) s = true) in H.
    change (String.prefix a (String c s) || contains a s = true).
    apply orb_true_iff in H. destruct H as [H|H].
    + rewrite (prefix_shorter a b _ H). reflexivity.
    + rewrite (IH H). apply orb_true_r.
Qed.

Lemma endswith_contains :
  forall suf s : string, endswith suf s = true -> contains suf s = true.
Proof.
  intros suf s H. destruct (endswith_split suf s H) as [pre ->].
  apply contains_app_r. apply contains_prefix.
  rewrite <- (prefix_refl_app suf EmptyString) at 1.
  f_equal. clear. induction suf; simpl; congruence.
Qed.

(** X1. A hyperlink whose address does not contain [.onion] yields no entry. *)
Theorem link_without_onion_yields_nothing :
  forall (w : env) (link : node),
    contains ".onion" (href_of link) = false ->
    entry_of_link w link = Ret None.
Proof.
  intros w link H. unfold entry_of_link.
  destruct (endswith ".onion" (href_of link)) eqn:E1.
  - apply endswith_contains in E1. congruence.
  - destruct (contains ".onion/" (href_of link)) eqn:E2; [|reflexivity].
    apply (contains_shorter ".onion" "/") in E2. congruence.
Qed.

Lemma string_app_assoc :
  forall a b c : string, ((a ++ b) ++ c = a ++ (b ++ c))%string.
Proof.
  induction a as [|x a IH]; intros b c; simpl; [reflexivity | rewrite IH; reflexivity].
Qed.

Lemma string_app_nil_r :
  forall a : string, (a ++ "")%string = a.
Proof.
  induction a as [|x a IH]; simpl; [reflexivity | rewrite IH; reflexivity].
Qed.

Lemma endswith_app :
  forall x suf : string, endswith suf (x ++ suf) = true.
Proof.
  intros x suf. unfold endswith.
  assert (Hlen : forall a b : string,
             String.length (a ++ b) = (String.length a + String.length b)%nat).
  { induction a as [|c a IH]; intros b; simpl; [reflexivity | rewrite IH; reflexivity]. }
  rewrite Hlen.
  replace (String.length x + String.length suf - String.length suf)%nat
    with (String.length x) by lia.
  apply andb_true_iff. split; [apply Nat.leb_le; lia|].
  apply String.eqb_eq.
  induction x as [|c x IH]; simpl; [apply substring_whole | exact IH].
Qed.

Lemma host_char_not_delimiter :
  forall c : ascii,
    Url.printable c && negb (mem_char c "/?#[]") = true ->
    Url.printable c = true /\
    mem_char c "/?#" = false /\ c <> "["%char /\ c <> "]"%char /\ c <> "/"%char.
Proof.
  intros c H. apply andb_true_iff in H. destruct H as [Hp H].
  apply negb_true_iff in H. simpl in H.
  repeat (apply orb_false_iff in H; destruct H as [? H]).
  split; [assumption|]. repeat split.
  - simpl. rewrite H0, H1, H2. reflexivity.
  - intros ->. discriminate.
  - intros ->. discriminate.
  - intros ->. discriminate.
Qed.

Lemma path_or_nothing_cases :
  forall rest : string,
    path_or_nothing rest = true ->
    Url.all_chars Url.printable rest = true /\
    (rest = EmptyString \/ exists rest', rest = String "/" rest').
Proof.
  intros rest H. unfold path_or_nothing in H.
  apply andb_true_iff in H. destruct H as [Hp Hr]. split; [assumption|].
  destruct rest as [|c rest]; [left; reflexivity|].
  apply Ascii.eqb_eq in Hr. subst c. right. eexists. reflexivity.
Qed.

Lemma take_host_app :
  forall h rest : string,
    bare_host h = true -> path_or_nothing rest = true ->
    Url.take_host (h ++ rest) = h.
Proof.
  induction h as [|c h IH]; intros rest Hh Hr; simpl.
  - destruct (path_or_nothing_cases rest Hr) as (_ & [->|(rest' & ->)]);
      reflexivity.
  - unfold bare_host in Hh. simpl in Hh.
    apply andb_true_iff in Hh. destruct Hh as [Hc Hh].
    destruct (host_char_not_delimiter c Hc) as (_ & Hd & _).
    simpl in Hd. rewrite Hd. rewrite IH; [reflexivity | exact Hh | exact Hr].
Qed.

Lemma contains_char_absent :
  forall (x : ascii) (s : string),
    Url.all_chars (fun c => negb (Ascii.eqb c x)) s = true ->
    contains (String x EmptyString) s = false.
Proof.
  intros x. induction s as [|c s IH]; intros H.
  - reflexivity.
  - simpl in H. apply andb_true_iff in H. destruct H as [Hc Hs].
    change (String.prefix (String x "") (String c s)
            || contains (String x "") s = false).
    rewrite (IH Hs). simpl.
    destruct (ascii_dec x c) as [->|]; [|reflexivity].
    rewrite Ascii.eqb_refl in Hc. discriminate.
Qed.

Lemma all_chars_weaken :
  forall (p q : ascii -> bool) (s : string),
    (forall c, p c = true -> q c = true) ->
    Url.all_chars p s = true -> Url.all_chars q s = true.
Proof.
  intros p q s Hpq. induction s as [|c s IH]; simpl; intros H; [reflexivity|].
  apply andb_true_iff in H. destruct H as [Hc Hs].
  rewrite (Hpq c Hc), (IH Hs). reflexivity.
Qed.

Lemma all_chars_app :
  forall (p : ascii -> bool) (a b : string),
    Url.all_chars p a = true -> Url.all_chars p b = true ->
    Url.all_chars p (a ++ b) = true.
Proof.
  intros p a b Ha Hb. induction a as [|c a IH]; simpl in *; [assumption|].
  apply andb_true_iff in Ha. destruct Ha as [Hc Ha].
  rewrite Hc, (IH Ha). reflexivity.
Qed.

Lemma bare_host_no_bracket :
  forall h : string,
    bare_host h = true -> contains "[" h = false /\ contains "]" h = false.
Proof.
  intros h H. unfold bare_host in H.
  split; apply contains_char_absent; revert H; apply all_chars_weaken;
    intros c Hc; destruct (host_char_not_delimiter c Hc) as (_ & _ & Ho & Hcl & _);
    apply negb_true_iff; apply Ascii.eqb_neq; assumption.
Qed.

Lemma http_url_is_plain :
  forall h rest : string,
    bare_host h = true -> path_or_nothing rest = true ->
    Url.plain ("http://" ++ h ++ rest) = true.
Proof.
  intros h rest Hh Hr. unfold Url.plain.
  apply andb_true_iff. split; [|reflexivity].
  apply (all_chars_app Url.printable "http://"); [reflexivity|].
  apply all_chars_app.
  - revert Hh. unfold bare_host. apply all_chars_weaken.
    intros c Hc. apply host_char_not_delimiter in Hc. tauto.
  - apply path_or_nothing_cases in Hr. tauto.
Qed.

(** The network location of [http://h] followed by nothing or by a path. *)
Lemma netloc_http :
  forall (library : string -> option string) (h rest : string),
    bare_host h = true -> path_or_nothing rest = true ->
    Url.netloc library ("http://" ++ h ++ rest) = Ret h.
Proof.
  intros library h rest Hh Hr.
  assert (Hs : Url.after_scheme ("http://" ++ h ++ rest)
               = String "/" (String "/" (h ++ rest))).
  { unfold Url.after_scheme.
    change (index 0 ":" ("http://" ++ h ++ rest)) with (Some 4%nat).
    cbv iota beta.
    change (substring 5 (String.length ("http://" ++ h ++ rest) - 5)
              ("http://" ++ h ++ rest))
      with (String "/" (String "/"
              (substring 0 (String.length (h ++ rest)) (h ++ rest)))).
    rewrite substring_whole. reflexivity. }
  unfold Url.netloc. rewrite (http_url_is_plain h rest Hh Hr), Hs.
  change (String.prefix "//" (String "/" (String "/" (h ++ rest))))
    with (String.prefix "" (h ++ rest)).
  replace (String.prefix "" (h ++ rest)) with true
    by (destruct (h ++ rest)%string; reflexivity).
  change (substring 2 (String.length (String "/" (String "/" (h ++ rest))) - 2)
            (String "/" (String "/" (h ++ rest))))
    with (substring 0 (String.length (h ++ rest) - 0) (h ++ rest)).
  rewrite Nat.sub_0_r, substring_whole.
  rewrite (take_host_app h rest Hh Hr).
  destruct (bare_host_no_bracket h Hh) as [-> ->]. reflexivity.
Qed.

Lemma lstrip_slashes :
  forall slashes t : string,
    Url.all_chars (fun c => Ascii.eqb c "/") slashes = true ->
    match t with String c _ => Ascii.eqb c "/" = false | EmptyString => True end ->
    lstrip "/" (slashes ++ t) = t.
Proof.
  induction slashes as [|c s IH]; intros t Hs Ht; simpl.
  - destruct t as [|c t]; [reflexivity|]. simpl. rewrite Ht. reflexivity.
  - simpl in Hs. apply andb_true_iff in Hs. destruct Hs as [Hc Hs].
    rewrite Hc. simpl. apply IH; assumption.
Qed.

(** X2. A hyperlink that does not start with [http] and is written without a
    scheme, as a host in printable ASCII ending in [.onion] (after any
    number of leading slashes, and followed by nothing or by a path in
    printable ASCII), yields the entry whose domain is that host, whose url
    is [http://] followed by the host and the path, and whose text is the
    stripped text of the link. *)
Theorem onion_host_link_entry :
  forall (w : env) (link : node) (slashes h rest : string),
    href_of link = (slashes ++ h ++ rest)%string ->
    Url.all_chars (fun c => Ascii.eqb c "/") slashes = true ->
    bare_host h = true ->
    endswith ".onion" h = true ->
    path_or_nothing rest = true ->
    startswith "http" (href_of link) = false ->
    entry_of_link w link =
    Ret (Some {| domain := h;
                 url := ("http://" ++ h ++ rest)%string;
                 text := strip (get_text link) |}).
Proof.
  intros w link slashes h rest Hhref Hsl Hh Hon Hr Hhttp.
  unfold entry_of_link. rewrite Hhttp. rewrite Hhref.
  destruct (endswith_split _ _ Hon) as [pre Hpre].
  assert (Hgate : endswith ".onion" (slashes ++ h ++ rest)
                  || contains ".onion/" (slashes ++ h ++ rest) = true).
  { destruct (path_or_nothing_cases rest Hr) as (_ & [->|(rest' & ->)]).
    - assert (E : (slashes ++ h ++ "")%string = ((slashes ++ pre) ++ ".onion")%string).
      { rewrite Hpre, string_app_nil_r, string_app_assoc. reflexivity. }
      rewrite E, endswith_app. reflexivity.
    - apply orb_true_iff. right.
      apply contains_app_r. rewrite Hpre, string_app_assoc.
      apply contains_app_r. apply contains_prefix.
      simpl. destruct rest'; reflexivity. }
  rewrite Hgate.
  assert (Hfirst : match (h ++ rest)%string with
                   | String c _ => Ascii.eqb c "/" = false
                   | EmptyString => True
                   end).
  { destruct h as [|c h]; [discriminate Hon|]. simpl.
    unfold bare_host in Hh. simpl in Hh.
    apply andb_true_iff in Hh. destruct Hh as [Hc _].
    destruct (host_char_not_delimiter c Hc) as (_ & _ & _ & _ & Hs).
    apply Ascii.eqb_neq. assumption. }
  rewrite (lstrip_slashes slashes (h ++ rest) Hsl Hfirst).
  rewrite (netloc_http (urlparse_netloc w) h rest Hh Hr). rewrite Hon.
  destruct h as [|c h]; [discriminate Hon|]. reflexivity.
Qed.

(** *** The extractor, link by link *)

Lemma entry_of_link_shape :
  forall (w : env) (link : node) (e : site_info),
    entry_of_link w link = Ret (Some e) ->
    endswith ".onion" (domain e) = true /\
    domain e <> EmptyString /\
    startswith "http" (url e) = true /\
    Url.netloc (urlparse_netloc w) (url e) = Ret (domain e) /\
    text e = strip (get_text link).
Proof.
  intros w link e. unfold entry_of_link.
  destruct (endswith ".onion" (href_of link) || contains ".onion/" (href_of link));
    [|discriminate].
  set (u := if startswith "http" (href_of link) then href_of link
            else ("http://" ++ lstrip "/" (href_of link))%string).
  assert (Hu : startswith "http" u = true).
  { subst u. destruct (startswith "http" (href_of link)) eqn:E; [exact E|].
    unfold startswith. simpl.
    destruct (lstrip "/" (href_of link)); reflexivity. }
  destruct (Url.netloc (urlparse_netloc w) u) as [d| |] eqn:En; try discriminate.
  destruct (negb (String.eqb d EmptyString)) eqn:Ed; simpl; [|discriminate].
  destruct (endswith ".onion" d) eqn:Eo; [|discriminate].
  intros H. inversion H; subst e; clear H. simpl.
  repeat split; try assumption.
  intros ->. discriminate.
Qed.

Lemma collect_origin :
  forall (w : env) (links : list node) (acc r : list site_info),
    collect w links acc = Ret r ->
    forall e, In e r ->
      In e acc \/ exists l, In l links /\ entry_of_link w l = Ret (Some e).
Proof.
  intros w. induction links as [|link links IH]; intros acc r H e He; simpl in H.
  - inversion H; subst. left. assumption.
  - destruct (entry_of_link w link) as [[e0|]| |] eqn:E; try discriminate.
    + destruct (IH _ _ H e He) as [Hin|(l & Hl & Hle)].
      * apply in_app_or in Hin. destruct Hin as [Hin|[<-|[]]].
        -- left. assumption.
        -- right. exists link. split; [left; reflexivity | assumption].
      * right. exists l. split; [right; assumption | assumption].
    + destruct (IH _ _ H e He) as [Hin|(l & Hl & Hle)].
      * left. assumption.
      * right. exists l. split; [right; assumption | assumption].
Qed.

Lemma collect_length :
  forall (w : env) (links : list node) (acc r : list site_info),
    collect w links acc = Ret r ->
    (List.length r <= List.length acc + List.length links)%nat.
Proof.
  intros w. induction links as [|link links IH]; intros acc r H; simpl in H.
  - inversion H; subst. lia.
  - destruct (entry_of_link w link) as [[e0|]| |]; try discriminate;
      apply IH in H; simpl; try rewrite length_app in H; simpl in H; lia.
Qed.

(** X3. Every entry the extractor returns has a domain that is not empty and
    ends in [.onion], and a url that starts with [http] and whose network
    location is that domain. *)
Theorem extracted_entries_are_onion_urls :
  forall (w : env) (html_content : string) (onion_sites : list site_info)
         (e : site_info),
    extract_onion_sites w html_content = Ret onion_sites ->
    In e onion_sites ->
    endswith ".onion" (domain e) = true /\
    domain e <> EmptyString /\
    startswith "http" (url e) = true /\
    Url.netloc (urlparse_netloc w) (url e) = Ret (domain e).
Proof.
  intros w html sites e H He.
  unfold extract_onion_sites, extract_from_soup in H.
  destruct (find_id "link_list" (html_parser w html)) as [container|].
  - destruct (collect_origin _ _ _ _ H e He) as [[]|(l & _ & Hl)].
    destruct (entry_of_link_shape w l e Hl) as (H1 & H2 & H3 & H4 & _).
    auto.
  - inversion H; subst. destruct He.
Qed.

(** X4. The extractor raises, and so returns no entry at all for the page,
    exactly when [urlparse] raises for one of the hyperlinks of the
    container that the loop hands to it; what it raises is then
    [ValueError], and with a [link_list] container the extractor otherwise
    returns a sequence. *)
Theorem one_bad_link_spoils_the_page :
  forall (w : env) (html_content : string) (container : node),
    find_id "link_list" (html_parser w html_content) = Some container ->
    (extract_onion_sites w html_content = Raise ValueError <->
     exists l e, In l (find_all_links container) /\ entry_of_link w l = Raise e) /\
    (forall e, extract_onion_sites w html_content = Raise e -> e = ValueError) /\
    (extract_onion_sites w html_content = Raise ValueError \/
     exists onion_sites, extract_onion_sites w html_content = Ret onion_sites).
Proof.
  intros w html container Hfind.
  unfold extract_onion_sites, extract_from_soup. rewrite Hfind.
  split; [|split].
  - rewrite collect_raises. split.
    + intros (l & Hl & He). exists l, ValueError. split; assumption.
    + intros (l & e & Hl & He). exists l. split; [assumption|].
      rewrite He. f_equal. eapply entry_of_link_raises_value_error. eassumption.
  - intros e He. apply collect_raises in He. destruct He as (l & _ & He).
    eapply entry_of_link_raises_value_error. eassumption.
  - destruct (collect w (find_all_links container) []) as [r|e|] eqn:E.
    + right. exists r. reflexivity.
    + left. f_equal. apply collect_raises in E. destruct E as (l & _ & He).
      eapply entry_of_link_raises_value_error. eassumption.
    + exfalso. eapply collect_total. eassumption.
Qed.

Lemma find_nothing :
  forall (A : Type) (f : A -> bool) (l : list A),
    (forall x, In x l -> f x = false) -> List.find f l = None.
Proof.
  intros A f. induction l as [|x l IH]; intros H; simpl; [reflexivity|].
  rewrite (H x (or_introl eq_refl)). apply IH.
  intros y Hy. apply H. right. assumption.
Qed.

(** X5. A page in which no tag carries the id [link_list] (an empty page for
    one) yields the empty sequence. *)
Theorem page_without_container_yields_nothing :
  forall (w : env) (html_content : string),
    (forall n, In n (soup_descendants (html_parser w html_content)) ->
               has_id "link_list" n = false) ->
    extract_onion_sites w html_content = Ret [].
Proof.
  intros w html H. unfold extract_onion_sites, extract_from_soup, find_id.
  rewrite (find_nothing _ _ _ H). reflexivity.
Qed.



(** *** The prober at its edges *)

Lemma already_tested_unknown :
  forall (l : list pyval) (d : string),
    Forall is_entry l -> ~ In d (addresses l) -> already_tested l d = Ret false.
Proof.
  induction l as [|e l IH]; simpl; intros d Hwf Hni; [reflexivity|].
  inversion Hwf as [|? ? [v Hv] Hl]; subst.
  unfold address_of in Hni. rewrite Hv in *.
  destruct (eq_str v d) eqn:E.
  - exfalso. destruct v; try discriminate.
    simpl in E. apply String.eqb_eq in E. subst. apply Hni. left. reflexivity.
  - apply IH; [assumption|].
    destruct v; try assumption.
    intros Hin. apply Hni. right. assumption.
Qed.

(** X6. A probe of an address that is not in the set, answered by anything but
    status 200 (another status, a timeout, a connection error, any other
    error of the request), returns false with [site_info] as it was; the one
    request is all that happened. *)
Theorem failed_probe_records_nothing :
  forall (w : env) (page : Z) (i : nat) (s : site_info)
         (st : checker) (l : list pyval),
    accessible_sites st = PList l ->
    Forall is_entry l ->
    ~ In (domain s) (addresses l) ->
    unanswered (site_answer w page i (url s)) ->
    test_onion_site_accessibility w page i s st
    = (Ret (false, as_dict s), logged (Get Probe (url s)) st).
Proof.
  intros w page i s st l Hl Hwf Hni Hu.
  unfold test_onion_site_accessibility, bind, ret, raise, lift, emit, get_sites.
  rewrite Hl. simpl. rewrite (already_tested_unknown l (domain s) Hwf Hni).
  destruct (site_answer w page i (url s)) as [status ? ? ?| | | |];
    simpl in Hu; try reflexivity; [|contradiction].
  apply Z.eqb_neq in Hu. rewrite Hu. reflexivity.
Qed.

(** X7. On a set of well-formed entries the prober raises nothing but the
    [KeyboardInterrupt] of an interrupted request (for an address that is not
    in the set). *)
Theorem prober_raises_only_on_interrupt :
  forall (w : env) (page : Z) (i : nat) (s : site_info)
         (st : checker) (l : list pyval) (e : exn),
    accessible_sites st = PList l ->
    Forall is_entry l ->
    fst (test_onion_site_accessibility w page i s st) = Raise e ->
    e = KeyboardInterrupt /\
    site_answer w page i (url s) = Interrupt /\
    ~ In (domain s) (addresses l).
Proof.
  intros w page i s st l e Hl Hwf.
  unfold test_onion_site_accessibility, bind, ret, raise, lift, emit, get_sites.
  rewrite Hl. simpl.
  destruct (already_tested l (domain s)) as [[|]|x|] eqn:Hs; simpl;
    try discriminate.
  - apply already_tested_fresh in Hs.
    destruct (site_answer w page i (url s)) as [status ? ? ?| | | |];
      simpl; try discriminate.
    + destruct (status =? 200); discriminate.
    + intros H. inversion H. auto.
  - exfalso. clear -Hwf Hs. revert Hs.
    induction Hwf as [|x0 l0 [v Hv] _ IH]; simpl; [discriminate|].
    rewrite Hv. destruct (eq_str v (domain s)); [discriminate | exact IH].
Qed.

(** X8. An element of the set that has no [domain] (or is no object at all),
    met by the scan before the candidate's address, makes the prober raise
    [KeyError] (or [TypeError]): no request is made and the state is as it
    was. *)
Theorem entry_without_domain_stops_the_prober :
  forall (w : env) (page : Z) (i : nat) (s : site_info) (st : checker)
         (before after : list pyval) (broken : pyval) (x : exn),
    accessible_sites st = PList (before ++ broken :: after) ->
    Forall is_entry before ->
    ~ In (domain s) (addresses before) ->
    getitem broken "domain" = Raise x ->
    test_onion_site_accessibility w page i s st = (Raise x, st) /\
    (x = KeyError \/ x = TypeError).
Proof.
  intros w page i s st before after broken x Hl Hwf Hni Hx.
  assert (Hs : already_tested (before ++ broken :: after) (domain s) = Raise x).
  { clear Hl. induction before as [|e before IH]; simpl.
    - rewrite Hx. reflexivity.
    - inversion Hwf as [|? ? [v Hv] Hb]; subst. rewrite Hv.
      simpl in Hni. unfold address_of in Hni. rewrite Hv in Hni.
      destruct (eq_str v (domain s)) eqn:E.
      + exfalso. destruct v; try discriminate.
        simpl in E. apply String.eqb_eq in E. subst. apply Hni. left. reflexivity.
      + apply IH; [assumption|].
        destruct v; try assumption.
        intros Hin. apply Hni. right. assumption. }
  split.
  - unfold test_onion_site_accessibility, bind, ret, raise, lift, emit, get_sites.
    rewrite Hl. simpl. rewrite Hs. reflexivity.
  - unfold getitem in Hx. destruct broken; inversion Hx; auto.
    destruct (dict_get "domain" fields); inversion Hx; auto.
Qed.

(** *** Saving, and the ways a run can go *)

(** X9. [save_sites] on a sequence leaves the set in memory alone, and returns
    normally unless the dump raises something else than an [IOError], which
    then escapes. A refused write leaves the file as it was; a write cut
    short by an [IOError] leaves a file that loads as the empty set, or,
    when the cut falls inside a character, a file on which the load raises
    the decoding error. *)
Theorem save_sites_survives_the_disk :
  forall (w : env) (st : checker) (l : list pyval),
    accessible_sites st = PList l ->
    let o := disk_write w (clock st) in
    ((forall e b, o <> Crashed e b) -> fst (save_sites w st) = Ret tt) /\
    (forall e b, o = Crashed e b -> fst (save_sites w st) = Raise e) /\
    accessible_sites (snd (save_sites w st)) = PList l /\
    (o = Denied -> disk (snd (save_sites w st)) = disk st) /\
    (o = Torn ->
     load_existing_sites (disk (snd (save_sites w st))) = Ret (PList [])) /\
    (o = TornInCharacter ->
     load_existing_sites (disk (snd (save_sites w st))) = Raise UnicodeError).
Proof.
  intros w st l Hl o. subst o. rewrite (save_sites_list w st l Hl). simpl.
  split; [|split; [|split; [reflexivity|]]].
  - intros Hc. destruct (disk_write w (clock st)) as [| | | |e b]; try reflexivity.
    exfalso. eapply Hc. reflexivity.
  - intros e b ->. reflexivity.
  - repeat split; intros ->; reflexivity.
Qed.

(** X10. Unless the diagnostic request is answered with status 200 and a JSON
    object, the run is over after that one request: nothing is fetched and
    nothing is written. It returns normally, except that an interrupt of the
    request escapes as [KeyboardInterrupt], the check being outside the
    [try]. *)
Theorem run_stops_at_failed_check :
  forall (w : env) (fuel : nat) (start_page max_pages : Z) (delay_range : Z * Z)
         (st : checker),
    (forall body d elapsed,
        tor_answer w <> Response 200 body (Some (PDict d)) elapsed) ->
    snd (run_checker w fuel start_page max_pages delay_range st)
      = logged (Get Diagnostic "http://httpbin.org/ip") st /\
    fst (run_checker w fuel start_page max_pages delay_range st)
      = match tor_answer w with
        | Interrupt => Raise KeyboardInterrupt
        | _ => Ret tt
        end.
Proof.
  intros w fuel start max_pages delay st Hno.
  unfold run_checker, test_tor_connection, bind, ret, raise, emit. simpl.
  destruct (tor_answer w) as [status body json elapsed| | | |];
    try (split; reflexivity).
  destruct (status =? 200) eqn:E; [|split; reflexivity].
  apply Z.eqb_eq in E. subst status.
  destruct json as [[]|]; try (split; reflexivity).
  exfalso. eapply Hno. reflexivity.
Qed.

(** X11. With [max_pages] zero or negative no listing page is asked for: once the
    connectivity check has passed the run consists of the final save. *)
Theorem no_pages_asked_for_without_budget :
  forall (w : env) (fuel : nat) (start_page max_pages : Z) (delay_range : Z * Z)
         (st st1 : checker),
    max_pages <= 0 ->
    test_tor_connection w st = (Ret true, st1) ->
    run_checker w fuel start_page max_pages delay_range st = save_sites w st1 /\
    iterations (log (snd (run_checker w fuel start_page max_pages delay_range st)))
      = iterations (log st).
Proof.
  intros w fuel start max_pages delay st st1 Hmax Htor.
  assert (Hloop : while_loop w fuel max_pages delay start 0 st1 = (Ret tt, st1)).
  { destruct fuel; simpl;
      (replace (0 <? max_pages) with false by (symmetry; apply Z.ltb_ge; lia));
      reflexivity. }
  assert (Hrun : run_checker w fuel start max_pages delay st = save_sites w st1).
  { unfold run_checker, bind. rewrite Htor. unfold try_finally. rewrite Hloop.
    reflexivity. }
  split; [assumption|]. rewrite Hrun.
  apply test_tor_connection_effect in Htor. subst st1.
  destruct (save_sites w (logged (Get Diagnostic "http://httpbin.org/ip") st))
    as [r st2] eqn:Hs. simpl.
  apply save_sites_effect in Hs.
  destruct Hs as (_ & _ & [(_ & _ & -> & _) | (n & stamp & _ & _ & -> & _)]);
    reflexivity.
Qed.




(** *** The pages the loop visits *)

Lemma test_each_listing_urls :
  forall (w : env) delay_range page onion_sites i st st' r,
    test_each w delay_range page i onion_sites st = (r, st') ->
    listing_urls (log st') = listing_urls (log st).
Proof.
  intros w delay page sites i st st' r E.
  refine (proj1 (test_each_inv w (fun s => listing_urls (log s) = listing_urls (log st))
                   _ _ _ _ _ delay page sites i st st' r eq_refl E)); auto.
  intros s0 s1 r0 H0 H. apply save_sites_effect in H.
  destruct H as (_ & _ & [(_ & _ & -> & _) | (n & stamp & _ & _ & -> & _)]);
    simpl; assumption.
Qed.

Lemma while_loop_pages :
  forall (w : env) (max_pages : Z) (delay_range : Z * Z)
         (fuel : nat) (page_number pages_checked : Z) (st st' : checker)
         (r : outcome unit),
    while_loop w fuel max_pages delay_range page_number pages_checked st = (r, st') ->
    exists n : nat,
      (n <= fuel)%nat /\
      listing_urls (log st')
        = map listing_url (pages_from page_number n) ++ listing_urls (log st) /\
      iterations (log st') = (iterations (log st) + n)%nat /\
      (r = Ret tt -> pages_checked <= max_pages ->
       Z.of_nat n - Z.of_nat (skipped w page_number n) = max_pages - pages_checked).
Proof.
  intros w max_pages delay.
  induction fuel as [|fuel IH]; intros page checked st st' r H; simpl in H;
    destruct (checked <? max_pages) eqn:Elt;
    try (inversion H; subst; exists 0%nat; simpl;
         repeat split; try lia; try discriminate;
         intros _ Hle; apply Z.ltb_ge in Elt; lia).
  apply Z.ltb_lt in Elt.
  assert (Hstep : forall (mid : checker) (checked' : Z) (fetched_ok : bool),
             listing_urls (log mid)
               = listing_url page :: listing_urls (log st) ->
             iterations (log mid) = S (iterations (log st)) ->
             fetched w page = fetched_ok ->
             checked' = (if fetched_ok then checked + 1 else checked) ->
             while_loop w fuel max_pages delay (page + 1) checked' mid = (r, st') ->
             exists n : nat,
               (n <= S fuel)%nat /\
               listing_urls (log st')
                 = map listing_url (pages_from page n) ++ listing_urls (log st) /\
               iterations (log st') = (iterations (log st) + n)%nat /\
               (r = Ret tt -> checked <= max_pages ->
                Z.of_nat n - Z.of_nat (skipped w page n) = max_pages - checked)).
  { intros mid checked' ok Hu Hi Hf Hc Hrec.
    destruct (IH _ _ _ _ _ Hrec) as (n & Hn & Hurls & Hits & Hacc).
    exists (S n). split; [lia|]. split; [|split].
    - rewrite Hurls, Hu. simpl. rewrite map_app, <- app_assoc. reflexivity.
    - rewrite Hits, Hi. lia.
    - intros Hr _. cbn [skipped]. rewrite Hf.
      assert (Hle : checked' <= max_pages) by (subst checked'; destruct ok; lia).
      specialize (Hacc Hr Hle). subst checked'. destruct ok; lia. }
  assert (Hstop :
             listing_urls (log st')
               = listing_url page :: listing_urls (log st) ->
             iterations (log st') = S (iterations (log st)) ->
             r <> Ret tt ->
             exists n : nat,
               (n <= S fuel)%nat /\
               listing_urls (log st')
                 = map listing_url (pages_from page n) ++ listing_urls (log st) /\
               iterations (log st') = (iterations (log st) + n)%nat /\
               (r = Ret tt -> checked <= max_pages ->
                Z.of_nat n - Z.of_nat (skipped w page n) = max_pages - checked)).
  { intros Hu Hi Hr. exists 1%nat. split; [lia|]. split; [|split].
    - rewrite Hu. reflexivity.
    - rewrite Hi. lia.
    - intros Hr'. contradiction. }
  bind_split H.
  - destruct (fetch_onion_listing_page_effect _ _ _ _ _ Hm)
      as (-> & [Hr|(h & Hr & Hf)]); [discriminate|].
    inversion Hr; subst h; clear Hr.
    destruct (falsy a) eqn:Efa.
    + refine (Hstep _ checked false _ _ _ _ Hk); try reflexivity.
      destruct (fetched w page); [discriminate | reflexivity].
    + assert (Hfe : fetched w page = true)
        by (destruct (fetched w page); [reflexivity | discriminate]).
      bind_split Hk.
      * inversion Hm0; subst; clear Hm0.
        bind_split Hk0.
        -- pose proof (test_each_listing_urls _ _ _ _ _ _ _ _ Hm0) as Hu1.
           pose proof (test_each_iterations _ _ _ _ _ _ _ _ Hm0) as Hi1.
           simpl in Hu1, Hi1.
           assert (Hs : forall (r2 : outcome unit) (s1 s2 : checker),
                      (if checked + 1 <? max_pages
                       then sleep 15 30 (page_nap w page) else ret tt) s1 = (r2, s2) ->
                      listing_urls (log s2) = listing_urls (log s1) /\
                      iterations (log s2) = iterations (log s1)).
           { intros r2 s1 s2 H2. destruct (checked + 1 <? max_pages).
             - apply sleep_effect in H2. destruct H2 as (-> & _). split; reflexivity.
             - inversion H2; subst. split; reflexivity. }
           bind_split Hk.
           ++ destruct (Hs _ _ _ Hm1) as (Hu2 & Hi2).
              refine (Hstep _ (checked + 1) true _ _ _ _ Hk0);
                try reflexivity; try assumption; congruence.
           ++ destruct (Hs _ _ _ Hm1) as (Hu2 & Hi2).
              apply Hstop; try discriminate; congruence.
           ++ destruct (Hs _ _ _ Hm1) as (Hu2 & Hi2).
              apply Hstop; try discriminate; congruence.
        -- pose proof (test_each_listing_urls _ _ _ _ _ _ _ _ Hm0) as Hu1.
           pose proof (test_each_iterations _ _ _ _ _ _ _ _ Hm0) as Hi1.
           apply Hstop; try discriminate; assumption.
        -- pose proof (test_each_listing_urls _ _ _ _ _ _ _ _ Hm0) as Hu1.
           pose proof (test_each_iterations _ _ _ _ _ _ _ _ Hm0) as Hi1.
           apply Hstop; try discriminate; assumption.
      * inversion Hm0; subst.
        apply Hstop; try reflexivity; discriminate.
      * inversion Hm0; subst.
        apply Hstop; try reflexivity; discriminate.
  - apply fetch_onion_listing_page_effect in Hm. destruct Hm as (-> & _).
    apply Hstop; try reflexivity; discriminate.
  - apply fetch_onion_listing_page_effect in Hm. destruct Hm as (-> & _).
    apply Hstop; try reflexivity; discriminate.
Qed.

(** X12. The loop asks for consecutive pages, [page_number], [page_number + 1],
    ..., each once and in that order, one per iteration. *)
Theorem pages_are_asked_in_order :
  forall (w : env) (fuel : nat) (max_pages : Z) (delay_range : Z * Z)
         (page_number pages_checked : Z) (st st' : checker) (r : outcome unit),
    while_loop w fuel max_pages delay_range page_number pages_checked st = (r, st') ->
    exists n : nat,
      (n <= fuel)%nat /\
      iterations (log st') = (iterations (log st) + n)%nat /\
      listing_urls (log st')
        = map listing_url (pages_from page_number n) ++ listing_urls (log st).
Proof.
  intros w fuel max_pages delay page checked st st' r H.
  destruct (while_loop_pages _ _ _ _ _ _ _ _ _ H) as (n & Hn & Hu & Hi & _).
  exists n. auto.
Qed.

(** X13. When the loop ends by reaching the bound, its number of iterations is
    [max_pages] plus the number of visited pages whose fetch failed: exactly
    [max_pages] pages were fetched and processed. *)
Theorem completed_loop_counts_fetched_pages :
  forall (w : env) (fuel : nat) (max_pages : Z) (delay_range : Z * Z)
         (start_page : Z) (st st' : checker),
    0 <= max_pages ->
    while_loop w fuel max_pages delay_range start_page 0 st = (Ret tt, st') ->
    exists n : nat,
      iterations (log st') = (iterations (log st) + n)%nat /\
      Z.of_nat n = max_pages + Z.of_nat (skipped w start_page n).
Proof.
  intros w fuel max_pages delay start st st' Hmax H.
  destruct (while_loop_pages _ _ _ _ _ _ _ _ _ H) as (n & _ & _ & Hi & Hacc).
  exists n. split; [assumption|].
  specialize (Hacc eq_refl Hmax). lia.
Qed.


(** X14. A run only appends to the set: the entries it started with stay, in
    place and unchanged, and every entry added is one left by a successful
    probe (status ['accessible']). *)
Theorem run_only_appends_probed_entries :
  forall (w : env) (fuel : nat) (start_page max_pages : Z) (delay_range : Z * Z)
         (st : checker) (l : list pyval),
    accessible_sites st = PList l ->
    exists added,
      accessible_sites (snd (run_checker w fuel start_page max_pages delay_range st))
        = PList (l ++ added) /\
      Forall is_probed added.
Proof.
  intros w fuel start max_pages delay st l Hl.
  destruct (run_checker w fuel start max_pages delay st) as [r st'] eqn:E.
  simpl. change (extends l st').
  revert E. apply (run_checker_inv w (extends l)); unfold extends; simpl;
    try (intros; assumption).
  - intros st0 l0 s stamp elapsed (added & Ha & Hp) Hl0 _.
    rewrite Ha in Hl0. inversion Hl0; subst l0.
    exists (added ++ [PDict (probed s stamp elapsed)]).
    split; [rewrite app_assoc; reflexivity|].
    apply Forall_app. split; [assumption|].
    constructor; [|constructor]. exists s, stamp, elapsed. reflexivity.
  - intros st0 st1 r0 (added & Ha & Hp) H. apply save_sites_effect in H.
    destruct H as (-> & _). exists added. split; assumption.
  - exists []. rewrite app_nil_r. split; [assumption | constructor].
Qed.


Lemma unsized_set_is_frozen :
  forall (w : env) (fuel : nat) (start_page max_pages : Z) (delay_range : Z * Z)
         (st st' : checker) (r : outcome unit),
    py_len (accessible_sites st) = None ->
    run_checker w fuel start_page max_pages delay_range st = (r, st') ->
    frozen (accessible_sites st) (disk st) (snapshots (log st)) st'.
Proof.
  intros w fuel start max_pages delay st st' r Hlen.
  apply (run_checker_inv w (frozen (accessible_sites st) (disk st) (snapshots (log st))));
    unfold frozen; simpl; try (intros; assumption).
  - intros st0 l s stamp elapsed (Hs & _) Hl _.
    rewrite <- Hs, Hl in Hlen. discriminate.
  - intros st0 st1 r0 (Hs & Hd & Hl) H. apply save_sites_effect in H.
    destruct H as (Hs1 & _ & [(_ & _ & Hlog & Hdisk) | (n & stamp & _ & Hn & _)]).
    + rewrite Hs1, Hlog, Hdisk. auto.
    + rewrite Hs, Hlen in Hn. discriminate.
  - auto.
Qed.

Lemma unsized_loop_is_frozen :
  forall (w : env) fuel max_pages delay_range page_number pages_checked
         (st st1 st2 : checker) (r : outcome unit),
    py_len (accessible_sites st) = None ->
    st1 = logged (Get Diagnostic "http://httpbin.org/ip") st ->
    while_loop w fuel max_pages delay_range page_number pages_checked st1 = (r, st2) ->
    frozen (accessible_sites st) (disk st) (snapshots (log st)) st2.
Proof.
  intros w fuel max_pages delay page checked st st1 st2 r Hlen Hst1.
  apply (while_loop_inv w (frozen (accessible_sites st) (disk st) (snapshots (log st))));
    unfold frozen; simpl; try (intros; assumption).
  - intros st0 l s stamp elapsed (Hs0 & _) Hl0 _.
    rewrite <- Hs0, Hl0 in Hlen. discriminate.
  - intros st0 st3 r0 (Hs0 & Hd0 & Hl0) H. apply save_sites_effect in H.
    destruct H as (Hs1 & _ & [(_ & _ & Hlog & Hdisk) | (n & stamp & _ & Hn & _)]).
    + rewrite Hs1, Hlog, Hdisk. auto.
    + rewrite Hs0, Hlen in Hn. discriminate.
  - subst st1. simpl. auto.
Qed.

(** X15. When the document's [accessible_sites] is a value without a length (a
    number, a boolean, null), the run never writes: the file stays as it
    was, and a run that passed the connectivity check and left the loop ends
    with the [TypeError] of the final save. *)
Theorem unsized_set_is_never_written :
  forall (w : env) (fuel : nat) (start_page max_pages : Z) (delay_range : Z * Z)
         (st : checker),
    py_len (accessible_sites st) = None ->
    let out := run_checker w fuel start_page max_pages delay_range st in
    disk (snd out) = disk st /\
    snapshots (log (snd out)) = snapshots (log st) /\
    (fst (test_tor_connection w st) = Ret true ->
     fst out = Raise TypeError \/ fst out = OutOfFuel).
Proof.
  intros w fuel start max_pages delay st Hlen out. subst out.
  destruct (run_checker w fuel start max_pages delay st) as [r st'] eqn:E.
  destruct (unsized_set_is_frozen _ _ _ _ _ _ _ _ Hlen E) as (Hs & Hd & Hl).
  simpl. split; [assumption|]. split; [assumption|].
  intros Htor. unfold run_checker, bind in E.
  destruct (test_tor_connection w st) as [rt st1] eqn:Et. simpl in Htor. subst rt.
  unfold try_finally in E.
  apply test_tor_connection_effect in Et as Hst1.
  destruct (while_loop w fuel max_pages delay start 0 st1) as [[u|e|] st2] eqn:Hloop.
  - assert (Hlen2 : py_len (accessible_sites st2) = None).
    { destruct (unsized_loop_is_frozen _ _ _ _ _ _ _ _ _ _ Hlen Hst1 Hloop)
        as (-> & _). assumption. }
    apply save_sites_effect in E.
    destruct E as (_ & _ & [(-> & _) | (n & stamp & _ & Hn & _)]);
      [left; reflexivity | congruence].
  - assert (Hlen2 : py_len (accessible_sites st2) = None).
    { destruct (unsized_loop_is_frozen _ _ _ _ _ _ _ _ _ _ Hlen Hst1 Hloop)
        as (-> & _). assumption. }
    apply save_sites_effect in E.
    destruct E as (_ & _ & [(-> & _) | (n & stamp & _ & Hn & _)]);
      [left; reflexivity | congruence].
  - inversion E; subst. right. reflexivity.
Qed.


(** X16. [run_checker] lets an exception escape in three cases only: the
    connectivity check is interrupted ([KeyboardInterrupt], nothing else
    having been done); or the check has passed and the final save raises,
    either [TypeError] because the set the run started with has no length,
    or what a dump raised that is no [IOError]. Whatever is raised inside
    the loop stops there. *)
Theorem run_lets_three_exceptions_escape :
  forall (w : env) (fuel : nat) (start_page max_pages : Z) (delay_range : Z * Z)
         (st : checker) (e : exn),
    fst (run_checker w fuel start_page max_pages delay_range st) = Raise e ->
    (e = KeyboardInterrupt /\ tor_answer w = Interrupt /\
     snd (run_checker w fuel start_page max_pages delay_range st)
       = logged (Get Diagnostic "http://httpbin.org/ip") st) \/
    (fst (test_tor_connection w st) = Ret true /\
     ((e = TypeError /\ py_len (accessible_sites st) = None) \/
      (exists k b, disk_write w k = Crashed e b))).
Proof.
  intros w fuel start max_pages delay st e. unfold run_checker, bind.
  destruct (test_tor_connection w st) as [[ok|x|] st1] eqn:Et; simpl.
  - pose proof (test_tor_connection_effect w _ _ _ Et) as Hst1.
    destruct ok; [|discriminate].
    unfold try_finally.
    assert (Hsave : forall st2 r0,
               while_loop w fuel max_pages delay start 0 st1 = (r0, st2) ->
               fst (save_sites w st2) = Raise e ->
               (e = TypeError /\ py_len (accessible_sites st) = None) \/
               (exists k b, disk_write w k = Crashed e b)).
    { intros st2 r0 Hloop Hr.
      destruct (save_sites w st2) as [r3 st3] eqn:Hs. simpl in Hr. subst r3.
      apply save_sites_effect in Hs.
      destruct Hs as (_ & _ & [(Hr & Hn & _) | (n & stamp & Hr & _)]).
      - left. inversion Hr; subst e. split; [reflexivity|].
        destruct (py_len (accessible_sites st)) as [m|] eqn:Hlen; [|reflexivity].
        exfalso.
        assert (Hs2 : sized st2).
        { eapply loop_keeps_sized; [|exact Hloop].
          subst st1. unfold sized. simpl. congruence. }
        apply Hs2. assumption.
      - right. exists (clock st2).
        destruct (disk_write w (clock st2)) as [| | | |x b]; try discriminate.
        inversion Hr; subst x. exists b. reflexivity. }
    destruct (while_loop w fuel max_pages delay start 0 st1) as [[u|x|] st2] eqn:Hloop;
      try discriminate; intros H; right; (split; [reflexivity|]);
      eapply Hsave; eauto.
  - intros H. inversion H; subst x. left.
    pose proof (test_tor_connection_effect w _ _ _ Et) as ->.
    revert Et. unfold test_tor_connection, bind, ret, raise, emit. simpl.
    destruct (tor_answer w) as [status ? json ?| | | |]; try discriminate.
    + destruct (status =? 200); [|discriminate].
      destruct json as [[]|]; discriminate.
    + intros H1. inversion H1. repeat split.
  - discriminate.
Qed.

(** *** Pacing and persistence within a page *)

Lemma prober_requests :
  forall (w : env) (page : Z) (i : nat) (s : site_info)
         (st st' : checker) (r : outcome (bool * dict)),
    test_onion_site_accessibility w page i s st = (r, st') ->
    (probes (log st') <= probes (log st) + 1)%nat.
Proof.
  intros w page i s st st' r.
  unfold test_onion_site_accessibility, bind, ret, raise, lift, emit, get_sites.
  simpl.
  destruct (py_iter (accessible_sites st)) as [items| |];
    try (intros H; inversion H; subst; lia).
  destruct (already_tested items (domain s)) as [[|]| |];
    try (intros H; inversion H; subst; lia).
  destruct (site_answer w page i (url s)) as [status body json elapsed| | | |];
    try (intros H; inversion H; subst; simpl; lia).
  destruct (status =? 200); intros H; inversion H; subst; simpl; lia.
Qed.

(** X17. Within a page every probe request is followed by a sleep before the
    next one: at any point at most one more probe than sleeps has been made,
    and a page gone through to its end has cost one sleep per entry and at
    most one probe per entry. *)
Theorem every_probe_is_followed_by_a_sleep :
  forall (w : env) (delay_range : Z * Z) (page : Z)
         (onion_sites : list site_info) (i : nat) (st st' : checker)
         (r : outcome unit),
    test_each w delay_range page i onion_sites st = (r, st') ->
    (probes (log st') + naps (log st) <= probes (log st) + naps (log st') + 1)%nat /\
    (r = Ret tt ->
     naps (log st') = (naps (log st) + List.length onion_sites)%nat /\
     (probes (log st') <= probes (log st) + List.length onion_sites)%nat).
Proof.
  intros w delay page sites.
  induction sites as [|s rest IH]; intros i st st' r H; simpl in H.
  - inversion H; subst. simpl. split; [lia | intros _; split; lia].
  - bind_split H.
    + pose proof (prober_requests _ _ _ _ _ _ _ Hm) as Hp.
      destruct (test_onion_site_accessibility_cases _ _ _ _ _ _ _ Hm)
        as (_ & _ & _ & Hn & _).
      destruct a as [b e]; simpl in Hk.
      assert (Hmid : forall st2 r2,
                 (if b then append (PDict e) ;; save_sites w else ret tt) st0
                 = (r2, st2) ->
                 probes (log st2) = probes (log st0) /\
                 naps (log st2) = naps (log st0)).
      { intros st2 r2 H2. destruct b.
        - bind_split H2.
          + unfold append in Hm0.
            destruct (accessible_sites st0); inversion Hm0; subst; clear Hm0.
            apply save_sites_effect in Hk0. simpl in Hk0.
            destruct Hk0 as (_ & _ & [(_ & _ & -> & _) | (n & stamp & _ & _ & -> & _)]);
              split; reflexivity.
          + unfold append in Hm0.
            destruct (accessible_sites st0); inversion Hm0; subst; split; reflexivity.
          + unfold append in Hm0.
            destruct (accessible_sites st0); inversion Hm0.
        - inversion H2; subst. split; reflexivity. }
      bind_split Hk.
      * destruct (Hmid _ _ Hm0) as (Hp2 & Hn2).
        bind_split Hk0.
        -- apply sleep_effect in Hm1. destruct Hm1 as (-> & _).
           destruct (IH _ _ _ _ Hk) as (Hpace & Hret). simpl in Hpace, Hret.
           split; [lia|]. intros Hr. destruct (Hret Hr). simpl. split; lia.
        -- apply sleep_effect in Hm1. destruct Hm1 as (-> & _). simpl.
           split; [lia | discriminate].
        -- apply sleep_effect in Hm1. destruct Hm1 as (_ & Hne).
           contradiction Hne. reflexivity.
      * destruct (Hmid _ _ Hm0) as (Hp2 & Hn2). split; [lia | discriminate].
      * destruct (Hmid _ _ Hm0) as (Hp2 & Hn2). split; [lia | discriminate].
    + pose proof (prober_requests _ _ _ _ _ _ _ Hm) as Hp.
      destruct (test_onion_site_accessibility_cases _ _ _ _ _ _ _ Hm)
        as (_ & _ & _ & Hn & _).
      split; [lia | discriminate].
    + exfalso. eapply test_onion_site_accessibility_total. rewrite Hm. reflexivity.
Qed.


(** X18. Going through a page all of whose entries are already in the set makes
    no request, reads no clock and writes nothing: set, file and documents
    are as before. *)
Theorem known_page_costs_only_sleeps :
  forall (w : env) (delay_range : Z * Z) (page : Z)
         (onion_sites : list site_info) (i : nat) (st : checker) (l : list pyval),
    accessible_sites st = PList l ->
    Forall is_entry l ->
    Forall (fun s => In (domain s) (addresses l)) onion_sites ->
    let st' := snd (test_each w delay_range page i onion_sites st) in
    accessible_sites st' = PList l /\
    disk st' = disk st /\
    clock st' = clock st /\
    requests (log st') = requests (log st) /\
    snapshots (log st') = snapshots (log st).
Proof.
  intros w delay page sites.
  induction sites as [|s rest IH]; intros i st l Hl Hwf Hknown; cbv zeta.
  - simpl. auto.
  - inversion Hknown as [|? ? Hs Hrest]; subst.
    assert (E : test_onion_site_accessibility w page i s st
                = (Ret (false, as_dict s), st)).
    { unfold test_onion_site_accessibility, bind, ret, lift, get_sites.
      rewrite Hl. simpl. rewrite (already_tested_known l (domain s) Hwf Hs).
      reflexivity. }
    assert (Eq : test_each w delay page i (s :: rest) st
                 = (sleep (fst delay) (snd delay) (entry_nap w page i) ;;
                    test_each w delay page (S i) rest) st).
    { simpl. unfold bind at 1. rewrite E. reflexivity. }
    rewrite Eq. clear Eq E.
    specialize (IH (S i) (logged (Sleep (fst delay) (snd delay)) st) l Hl Hwf Hrest).
    unfold sleep, bind, emit, ret, raise.
    destruct (entry_nap w page i); simpl; auto.
Qed.


(** X19. A candidate with a new address that answers with status 200 is appended
    to the set and the set is dumped straight away, before the sleep: the
    document holds the old entries followed by the new one, and counts one
    more. The page then goes on with the sleep, unless the dump raised
    something else than an [IOError], which ends the page there. *)
Theorem reachable_site_is_saved_at_once :
  forall (w : env) (delay_range : Z * Z) (page : Z) (i : nat)
         (s : site_info) (rest : list site_info) (st : checker) (l : list pyval)
         (body : string) (json : option pyval) (elapsed : float),
    accessible_sites st = PList l ->
    Forall is_entry l ->
    ~ In (domain s) (addresses l) ->
    site_answer w page i (url s) = Response 200 body json elapsed ->
    exists data st1,
      ((forall e b, disk_write w (S (clock st)) <> Crashed e b) ->
       test_each w delay_range page i (s :: rest) st
       = (sleep (fst delay_range) (snd delay_range) (entry_nap w page i) ;;
          test_each w delay_range page (S i) rest) st1) /\
      (forall e b, disk_write w (S (clock st)) = Crashed e b ->
       test_each w delay_range page i (s :: rest) st = (Raise e, st1)) /\
      accessible_sites st1 = PList (l ++ [PDict (probed s (now w (clock st)) elapsed)]) /\
      log st1 = Dump data (disk_write w (S (clock st))) :: Get Probe (url s) :: log st /\
      document_entries data = l ++ [PDict (probed s (now w (clock st)) elapsed)] /\
      getitem data "total_accessible_sites"
        = Ret (PInt (Z.of_nat (List.length l) + 1)) /\
      disk st1 = written (disk_write w (S (clock st))) data (disk st).
Proof.
  intros w delay page i s rest st l body json elapsed Hl Hwf Hni Hans.
  assert (E : test_onion_site_accessibility w page i s st
              = (Ret (true, probed s (now w (clock st)) elapsed),
                 {| accessible_sites := PList l; disk := disk st;
                    clock := S (clock st);
                    log := Get Probe (url s) :: log st |})).
  { unfold test_onion_site_accessibility, bind, ret, lift, get_sites, emit, isonow.
    rewrite Hl. simpl. rewrite (already_tested_unknown l (domain s) Hwf Hni).
    rewrite Hans. simpl. rewrite Hl. reflexivity. }
  set (e := PDict (probed s (now w (clock st)) elapsed)).
  set (mid := {| accessible_sites := PList (l ++ [e]); disk := disk st;
                 clock := S (clock st);
                 log := Get Probe (url s) :: log st |}).
  pose proof (save_sites_list w mid (l ++ [e]) eq_refl) as Hsave.
  cbv zeta in Hsave. simpl in Hsave.
  match type of Hsave with _ = (_, ?st1) => exists (PDict
    [("last_updated"%string, PStr (now w (S (clock st))));
     ("total_accessible_sites"%string, PInt (Z.of_nat (List.length (l ++ [e]))));
     ("accessible_sites"%string, PList (l ++ [e]))]), st1 end.
  assert (Eq : test_each w delay page i (s :: rest) st
               = (save_sites w ;;
                  sleep (fst delay) (snd delay) (entry_nap w page i) ;;
                  test_each w delay page (S i) rest) mid).
  { cbn [test_each]. unfold bind. rewrite E. cbn [fst snd].
    unfold append. cbn [accessible_sites disk clock log]. fold e. fold mid.
    destruct (save_sites w mid) as [[u| |] ?]; reflexivity. }
  split; [|split].
  - intros Hc. rewrite Eq. unfold bind at 1. rewrite Hsave.
    destruct (disk_write w (S (clock st))) as [| | | |x b]; try reflexivity.
    exfalso. eapply Hc. reflexivity.
  - intros x b Hc. rewrite Eq. unfold bind at 1. rewrite Hsave, Hc. reflexivity.
  - simpl. rewrite length_app. simpl. repeat split.
    f_equal. f_equal. lia.
Qed.

(** X20. When the final write goes through, a checker built on the file starts
    with the very set this run ended with. *)
Theorem next_run_starts_where_this_one_ended :
  forall (w : env) (fuel : nat) (start_page max_pages : Z) (delay_range : Z * Z)
         (st st1 st2 : checker) (l : list pyval) (r : outcome unit),
    accessible_sites st = PList l ->
    test_tor_connection w st = (Ret true, st1) ->
    while_loop w fuel max_pages delay_range start_page 0 st1 = (r, st2) ->
    r <> OutOfFuel ->
    disk_write w (clock st2) = Written ->
    let final := snd (run_checker w fuel start_page max_pages delay_range st) in
    fst (run_checker w fuel start_page max_pages delay_range st) = Ret tt /\
    init (disk final) = Ret (fresh (accessible_sites final) (disk final)).
Proof.
  intros w fuel start max_pages delay st st1 st2 l r Hl Htor Hloop Hr Hw final.
  assert (Hseq : sequence_in_memory st2).
  { eapply run_keeps_sequence; [|exact Hloop].
    apply test_tor_connection_effect in Htor. subst st1. exists l. assumption. }
  destruct Hseq as [l2 Hl2].
  assert (Hrun : run_checker w fuel start max_pages delay st = save_sites w st2).
  { unfold run_checker, bind. rewrite Htor. unfold try_finally. rewrite Hloop.
    destruct r as [[]|e|]; [reflexivity | reflexivity | contradiction]. }
  subst final. rewrite Hrun, (save_sites_list w st2 l2 Hl2). simpl.
  rewrite Hw. split; reflexivity.
Qed.

(* ------------------------------------------------------------------ *)
(** ** The further properties at work on the samples *)

Lemma page_without_container_yields_nothing_witness :
  (forall n, In n (soup_descendants (html_parser Cases.blank "<p>...</p>")) ->
             has_id "link_list" n = false) /\
  extract_onion_sites Cases.blank "<p>...</p>" = Ret [].
Proof.
  assert (H : forall n,
             In n (soup_descendants (html_parser Cases.blank "<p>...</p>")) ->
             has_id "link_list" n = false).
  { intros n Hn. vm_compute in Hn. destruct Hn as [<-|[<-|[]]]; reflexivity. }
  split; [exact H|].
  exact (page_without_container_yields_nothing Cases.blank "<p>...</p>" H).
Defined.

Lemma link_without_onion_yields_nothing_witness :
  contains ".onion" (href_of Sample.other_link) = false /\
  entry_of_link Sample.up Sample.other_link = Ret None.
Proof.
  split; [reflexivity|].
  apply (link_without_onion_yields_nothing Sample.up Sample.other_link).
  reflexivity.
Defined.

Lemma onion_host_link_entry_witness :
  href_of Cases.xyz_link = ("//" ++ "xyz.onion" ++ "/wiki/index.html")%string /\
  Url.all_chars (fun c => Ascii.eqb c "/") "//" = true /\
  bare_host "xyz.onion" = true /\
  endswith ".onion" "xyz.onion" = true /\
  path_or_nothing "/wiki/index.html" = true /\
  startswith "http" (href_of Cases.xyz_link) = false /\
  entry_of_link Sample.up Cases.xyz_link =
  Ret (Some {| domain := "xyz.onion";
               url := ("http://" ++ "xyz.onion" ++ "/wiki/index.html")%string;
               text := strip (get_text Cases.xyz_link) |}).
Proof.
  repeat (split; [reflexivity|]).
  apply (onion_host_link_entry Sample.up Cases.xyz_link
           "//" "xyz.onion" "/wiki/index.html");
    reflexivity.
Defined.

Lemma extracted_entries_are_onion_urls_witness :
  extract_onion_sites Sample.up "<html>...</html>" = Ret [Sample.abc] /\
  In Sample.abc [Sample.abc] /\
  endswith ".onion" (domain Sample.abc) = true /\
  domain Sample.abc <> EmptyString /\
  startswith "http" (url Sample.abc) = true /\
  Url.netloc (urlparse_netloc Sample.up) (url Sample.abc) = Ret (domain Sample.abc).
Proof.
  split; [reflexivity|]. split; [left; reflexivity|].
  apply (extracted_entries_are_onion_urls Sample.up "<html>...</html>"
           [Sample.abc] Sample.abc).
  - reflexivity.
  - left. reflexivity.
Defined.

Lemma one_bad_link_spoils_the_page_witness :
  find_id "link_list" (html_parser Cases.spoiled "<body>...</body>")
    = Some Cases.mixed_list /\
  In Cases.bad_link (find_all_links Cases.mixed_list) /\
  entry_of_link Cases.spoiled Cases.bad_link = Raise ValueError /\
  extract_onion_sites Cases.spoiled "<body>...</body>" = Raise ValueError.
Proof.
  split; [reflexivity|]. split; [right; left; reflexivity|].
  split; [reflexivity|].
  apply (one_bad_link_spoils_the_page Cases.spoiled "<body>...</body>"
           Cases.mixed_list eq_refl).
  exists Cases.bad_link, ValueError.
  split; [right; left; reflexivity | reflexivity].
Defined.

Lemma failed_probe_records_nothing_witness :
  accessible_sites Sample.new = PList [] /\
  Forall is_entry [] /\
  ~ In (domain Sample.abc) (addresses []) /\
  unanswered (site_answer Cases.barren 0 0 (url Sample.abc)) /\
  test_onion_site_accessibility Cases.barren 0 0 Sample.abc Sample.new
  = (Ret (false, as_dict Sample.abc),
     logged (Get Probe (url Sample.abc)) Sample.new).
Proof.
  assert (Hu : unanswered (site_answer Cases.barren 0 0 (url Sample.abc))).
  { simpl. lia. }
  split; [reflexivity|]. split; [constructor|]. split; [intros []|].
  split; [exact Hu|].
  exact (failed_probe_records_nothing Cases.barren 0 0%nat Sample.abc Sample.new []
           eq_refl (Forall_nil _) (fun H => H) Hu).
Defined.

Lemma prober_raises_only_on_interrupt_witness :
  accessible_sites Sample.knows_abc = PList [Sample.abc_probed] /\
  Forall is_entry [Sample.abc_probed] /\
  fst (test_onion_site_accessibility Cases.cut_short 0 0
         {| domain := "xyz.onion"; url := "http://xyz.onion"; text := "Wiki" |}
         Sample.knows_abc) = Raise KeyboardInterrupt /\
  KeyboardInterrupt = KeyboardInterrupt /\
  site_answer Cases.cut_short 0 0 "http://xyz.onion" = Interrupt /\
  ~ In "xyz.onion"%string (addresses [Sample.abc_probed]).
Proof.
  assert (Hwf : Forall is_entry [Sample.abc_probed]).
  { constructor; [|constructor]. eexists. reflexivity. }
  split; [reflexivity|]. split; [exact Hwf|]. split; [reflexivity|].
  exact (prober_raises_only_on_interrupt Cases.cut_short 0 0%nat
           {| domain := "xyz.onion"; url := "http://xyz.onion"; text := "Wiki" |}
           Sample.knows_abc [Sample.abc_probed] KeyboardInterrupt
           eq_refl Hwf eq_refl).
Defined.

Lemma entry_without_domain_stops_the_prober_witness :
  accessible_sites Cases.on_holed
    = PList ([] ++ PDict [("url"%string, PStr "http://xyz.onion")]
                :: [Sample.abc_probed]) /\
  Forall is_entry [] /\
  ~ In (domain Sample.abc) (addresses []) /\
  getitem (PDict [("url"%string, PStr "http://xyz.onion")]) "domain" = Raise KeyError /\
  test_onion_site_accessibility Sample.up 0 0 Sample.abc Cases.on_holed
    = (Raise KeyError, Cases.on_holed) /\
  (KeyError = KeyError \/ KeyError = TypeError).
Proof.
  split; [reflexivity|]. split; [constructor|]. split; [intros []|].
  split; [reflexivity|].
  exact (entry_without_domain_stops_the_prober Sample.up 0 0%nat Sample.abc
           Cases.on_holed [] [Sample.abc_probed]
           (PDict [("url"%string, PStr "http://xyz.onion")]) KeyError
           eq_refl (Forall_nil _) (fun H => H) eq_refl).
Defined.

Lemma save_sites_survives_the_disk_witness :
  accessible_sites Sample.knows_abc = PList [Sample.abc_probed] /\
  disk_write Cases.barren (clock Sample.knows_abc) = Torn /\
  fst (save_sites Cases.barren Sample.knows_abc) = Ret tt /\
  accessible_sites (snd (save_sites Cases.barren Sample.knows_abc))
    = PList [Sample.abc_probed] /\
  load_existing_sites (disk (snd (save_sites Cases.barren Sample.knows_abc)))
    = Ret (PList []).
Proof.
  split; [reflexivity|]. split; [reflexivity|].
  destruct (save_sites_survives_the_disk Cases.barren Sample.knows_abc
              [Sample.abc_probed] eq_refl) as (Hr & _ & Hm & _ & Ht & _).
  split; [apply Hr; intros e b; discriminate|].
  split; [exact Hm|]. exact (Ht eq_refl).
Defined.

(** A dump that raises the encoding error: the first save of the run lets
    it through, the loop ends with it, and so does the final save. *)
Example crashed_dump_escapes :
  fst (save_sites Cases.garbled Sample.knows_abc) = Raise UnicodeError /\
  fst (while_loop Cases.garbled 1 1 (5, 15) 0 0 Sample.started) = Raise UnicodeError /\
  fst (run_checker Cases.garbled 1 0 1 (5, 15) Sample.new) = Raise UnicodeError /\
  naps (log (snd (run_checker Cases.garbled 1 0 1 (5, 15) Sample.new))) = 0%nat.
Proof. repeat split. Qed.

Lemma run_stops_at_failed_check_witness :
  (forall body d elapsed,
      tor_answer Cases.offline <> Response 200 body (Some (PDict d)) elapsed) /\
  snd (run_checker Cases.offline 5 0 3 (5, 15) Sample.new)
    = logged (Get Diagnostic "http://httpbin.org/ip") Sample.new /\
  fst (run_checker Cases.offline 5 0 3 (5, 15) Sample.new) = Ret tt /\
  fst (run_checker Cases.impatient 5 0 3 (5, 15) Sample.knows_abc)
    = Raise KeyboardInterrupt.
Proof.
  assert (H1 : forall body d elapsed,
             tor_answer Cases.offline <> Response 200 body (Some (PDict d)) elapsed).
  { intros body d elapsed. discriminate. }
  assert (H2 : forall body d elapsed,
             tor_answer Cases.impatient <> Response 200 body (Some (PDict d)) elapsed).
  { intros body d elapsed. discriminate. }
  split; [exact H1|].
  destruct (run_stops_at_failed_check Cases.offline 5 0 3 (5, 15) Sample.new H1)
    as (Hs & Hr).
  destruct (run_stops_at_failed_check Cases.impatient 5 0 3 (5, 15)
              Sample.knows_abc H2) as (_ & Hi).
  split; [exact Hs|]. split; [exact Hr | exact Hi].
Defined.

Lemma no_pages_asked_for_without_budget_witness :
  0 <= 0 /\
  test_tor_connection Sample.up Sample.new = (Ret true, Sample.started) /\
  run_checker Sample.up 4 7 0 (5, 15) Sample.new
    = save_sites Sample.up Sample.started /\
  iterations (log (snd (run_checker Sample.up 4 7 0 (5, 15) Sample.new)))
    = iterations (log Sample.new).
Proof.
  split; [lia|]. split; [reflexivity|].
  apply (no_pages_asked_for_without_budget Sample.up 4 7 0 (5, 15) Sample.new
           Sample.started).
  - lia.
  - reflexivity.
Defined.

Lemma pages_are_asked_in_order_witness :
  while_loop Sample.flaky 3 2 (5, 15) 0 0 Sample.knows_abc
    = (Ret tt, snd (while_loop Sample.flaky 3 2 (5, 15) 0 0 Sample.knows_abc)) /\
  exists n : nat,
    (n <= 3)%nat /\
    iterations (log (snd (while_loop Sample.flaky 3 2 (5, 15)%Z 0 0 Sample.knows_abc)))
      = (iterations (log Sample.knows_abc) + n)%nat /\
    listing_urls (log (snd (while_loop Sample.flaky 3 2 (5, 15) 0 0 Sample.knows_abc)))
      = map listing_url (pages_from 0 n) ++ listing_urls (log Sample.knows_abc).
Proof.
  split; [reflexivity|].
  apply (pages_are_asked_in_order Sample.flaky 3 2 (5, 15) 0 0 Sample.knows_abc
           (snd (while_loop Sample.flaky 3 2 (5, 15) 0 0 Sample.knows_abc))
           (Ret tt)).
  reflexivity.
Defined.

Lemma completed_loop_counts_fetched_pages_witness :
  0 <= 2 /\
  while_loop Sample.flaky 3 2 (5, 15) 0 0 Sample.knows_abc
    = (Ret tt, snd (while_loop Sample.flaky 3 2 (5, 15) 0 0 Sample.knows_abc)) /\
  exists n : nat,
    iterations (log (snd (while_loop Sample.flaky 3 2 (5, 15)%Z 0 0 Sample.knows_abc)))
      = (iterations (log Sample.knows_abc) + n)%nat /\
    Z.of_nat n = 2 + Z.of_nat (skipped Sample.flaky 0 n).
Proof.
  split; [lia|]. split; [reflexivity|].
  apply (completed_loop_counts_fetched_pages Sample.flaky 3 2 (5, 15) 0
           Sample.knows_abc
           (snd (while_loop Sample.flaky 3 2 (5, 15) 0 0 Sample.knows_abc))).
  - lia.
  - reflexivity.
Defined.

Lemma run_only_appends_probed_entries_witness :
  accessible_sites Sample.knows_abc = PList [Sample.abc_probed] /\
  exists added,
    accessible_sites (snd (run_checker Sample.up 1 0 1 (5, 15) Sample.knows_abc))
      = PList ([Sample.abc_probed] ++ added) /\
    Forall is_probed added.
Proof.
  split; [reflexivity|].
  apply (run_only_appends_probed_entries Sample.up 1 0 1 (5, 15) Sample.knows_abc
           [Sample.abc_probed]).
  reflexivity.
Defined.

Lemma unsized_set_is_never_written_witness :
  py_len (accessible_sites Cases.on_counted) = None /\
  fst (test_tor_connection Sample.up Cases.on_counted) = Ret true /\
  disk (snd (run_checker Sample.up 1 0 1 (5, 15) Cases.on_counted))
    = Cases.counted /\
  snapshots (log (snd (run_checker Sample.up 1 0 1 (5, 15) Cases.on_counted)))
    = [] /\
  (fst (run_checker Sample.up 1 0 1 (5, 15) Cases.on_counted) = Raise TypeError \/
   fst (run_checker Sample.up 1 0 1 (5, 15) Cases.on_counted) = OutOfFuel).
Proof.
  split; [reflexivity|]. split; [reflexivity|].
  destruct (unsized_set_is_never_written Sample.up 1 0 1 (5, 15)
              Cases.on_counted eq_refl) as (Hd & Hs & Hr).
  split; [exact Hd|]. split; [exact Hs|]. exact (Hr eq_refl).
Defined.

Lemma run_lets_three_exceptions_escape_witness :
  fst (run_checker Cases.garbled 1 0 1 (5, 15) Sample.new) = Raise UnicodeError /\
  ((UnicodeError = KeyboardInterrupt /\ tor_answer Cases.garbled = Interrupt /\
    snd (run_checker Cases.garbled 1 0 1 (5, 15) Sample.new)
      = logged (Get Diagnostic "http://httpbin.org/ip") Sample.new) \/
   (fst (test_tor_connection Cases.garbled Sample.new) = Ret true /\
    ((UnicodeError = TypeError /\ py_len (accessible_sites Sample.new) = None) \/
     (exists k b, disk_write Cases.garbled k = Crashed UnicodeError b)))).
Proof.
  split; [reflexivity|].
  apply (run_lets_three_exceptions_escape Cases.garbled 1 0 1 (5, 15)
           Sample.new UnicodeError).
  reflexivity.
Defined.

Lemma every_probe_is_followed_by_a_sleep_witness :
  test_each Sample.up (5, 15) 0 0 [Sample.abc] Sample.new
    = (Ret tt, snd (test_each Sample.up (5, 15) 0 0 [Sample.abc] Sample.new)) /\
  (probes (log (snd (test_each Sample.up (5, 15)%Z 0 0 [Sample.abc] Sample.new)))
   + naps (log Sample.new)
   <= probes (log Sample.new)
      + naps (log (snd (test_each Sample.up (5, 15)%Z 0 0 [Sample.abc] Sample.new)))
      + 1)%nat /\
  naps (log (snd (test_each Sample.up (5, 15) 0 0 [Sample.abc] Sample.new)))
    = (naps (log Sample.new) + List.length [Sample.abc])%nat /\
  (probes (log (snd (test_each Sample.up (5, 15)%Z 0 0 [Sample.abc] Sample.new)))
   <= probes (log Sample.new) + List.length [Sample.abc])%nat.
Proof.
  split; [reflexivity|].
  destruct (every_probe_is_followed_by_a_sleep Sample.up (5, 15) 0 [Sample.abc] 0%nat
              Sample.new
              (snd (test_each Sample.up (5, 15) 0 0 [Sample.abc] Sample.new))
              (Ret tt) eq_refl) as (Hp & Hr).
  split; [exact Hp | exact (Hr eq_refl)].
Defined.

Lemma known_page_costs_only_sleeps_witness :
  accessible_sites Sample.knows_abc = PList [Sample.abc_probed] /\
  Forall is_entry [Sample.abc_probed] /\
  Forall (fun s => In (domain s) (addresses [Sample.abc_probed])) [Sample.abc] /\
  accessible_sites (snd (test_each Sample.up (5, 15) 0 0 [Sample.abc] Sample.knows_abc))
    = PList [Sample.abc_probed] /\
  disk (snd (test_each Sample.up (5, 15) 0 0 [Sample.abc] Sample.knows_abc))
    = disk Sample.knows_abc /\
  clock (snd (test_each Sample.up (5, 15) 0 0 [Sample.abc] Sample.knows_abc))
    = clock Sample.knows_abc /\
  requests (log (snd (test_each Sample.up (5, 15) 0 0 [Sample.abc] Sample.knows_abc)))
    = requests (log Sample.knows_abc) /\
  snapshots (log (snd (test_each Sample.up (5, 15) 0 0 [Sample.abc] Sample.knows_abc)))
    = snapshots (log Sample.knows_abc).
Proof.
  assert (Hwf : Forall is_entry [Sample.abc_probed]).
  { constructor; [|constructor]. eexists. reflexivity. }
  assert (Hk : Forall (fun s => In (domain s) (addresses [Sample.abc_probed]))
                 [Sample.abc]).
  { constructor; [left; reflexivity | constructor]. }
  split; [reflexivity|]. split; [exact Hwf|]. split; [exact Hk|].
  exact (known_page_costs_only_sleeps Sample.up (5, 15) 0 [Sample.abc] 0%nat
           Sample.knows_abc [Sample.abc_probed] eq_refl Hwf Hk).
Defined.

Lemma reachable_site_is_saved_at_once_witness :
  accessible_sites Sample.new = PList [] /\
  Forall is_entry [] /\
  ~ In (domain Sample.abc) (addresses []) /\
  site_answer Sample.up 0 0 (url Sample.abc)
    = Response 200 "<html></html>" None 2.5%float /\
  exists data st1,
    test_each Sample.up (5, 15) 0 0 [Sample.abc] Sample.new
    = (sleep (fst (5, 15)) (snd (5, 15)) (entry_nap Sample.up 0 0) ;;
       test_each Sample.up (5, 15) 0 1 []) st1 /\
    accessible_sites st1
      = PList ([] ++ [PDict (probed Sample.abc (now Sample.up (clock Sample.new))
                               2.5%float)]) /\
    log st1 = Dump data (disk_write Sample.up (S (clock Sample.new)))
                :: Get Probe (url Sample.abc) :: log Sample.new /\
    document_entries data
      = [] ++ [PDict (probed Sample.abc (now Sample.up (clock Sample.new))
                        2.5%float)] /\
    getitem data "total_accessible_sites"
      = Ret (PInt (Z.of_nat (List.length (@nil pyval)) + 1)) /\
    disk st1 = written (disk_write Sample.up (S (clock Sample.new))) data
                 (disk Sample.new).
Proof.
  split; [reflexivity|]. split; [constructor|]. split; [intros []|].
  split; [reflexivity|].
  destruct (reachable_site_is_saved_at_once Sample.up (5, 15) 0 0%nat Sample.abc []
              Sample.new [] "<html></html>" None 2.5%float
              eq_refl (Forall_nil _) (fun H => H) eq_refl)
    as (data & st1 & Hgo & _ & Hrest).
  exists data, st1. split; [|exact Hrest].
  apply Hgo. intros e b. discriminate.
Defined.

Lemma next_run_starts_where_this_one_ended_witness :
  accessible_sites Sample.new = PList [] /\
  test_tor_connection Sample.up Sample.new = (Ret true, Sample.started) /\
  while_loop Sample.up 1 1 (5, 15) 0 0 Sample.started = (Ret tt, Sample.crawled) /\
  Ret tt <> @OutOfFuel unit /\
  disk_write Sample.up (clock Sample.crawled) = Written /\
  fst (run_checker Sample.up 1 0 1 (5, 15) Sample.new) = Ret tt /\
  init (disk (snd (run_checker Sample.up 1 0 1 (5, 15) Sample.new)))
  = Ret (fresh (accessible_sites (snd (run_checker Sample.up 1 0 1 (5, 15) Sample.new)))
               (disk (snd (run_checker Sample.up 1 0 1 (5, 15) Sample.new)))).
Proof.
  assert (Hne : Ret tt <> @OutOfFuel unit) by discriminate.
  split; [reflexivity|]. split; [reflexivity|]. split; [reflexivity|].
  split; [exact Hne|]. split; [reflexivity|].
  exact (next_run_starts_where_this_one_ended Sample.up 1 0 1 (5, 15) Sample.new
           Sample.started Sample.crawled [] (Ret tt)
           eq_refl eq_refl eq_refl Hne eq_refl).
Defined.
